(** * Bible API backend: verse lookup, search and user annotations

    A shallow embedding of [main.py] and [schemas.py].  Python dictionaries
    whose iteration order is observable (the sample text table) are
    association lists; documents and request bodies, where only the binding
    of each key matters, are finite maps.  Strings are sequences of code
    points below 256, so the string built-ins used by the handlers
    ([lower], [in], [split], [strip], slicing) are modelled on that range. *)

From Stdlib Require Import ZArith NArith Ascii String DecimalString.
From Stdlib Require Import Floats.PrimFloat.
From stdpp Require Import base option list strings gmap fin_maps.

Local Open Scope string_scope.
Local Open Scope list_scope.
Local Open Scope nat_scope.
Set Warnings "-register-all".
Set Warnings "-inexact-float".

(** ** Python string built-ins *)

Module PyStr.

Definition code (c : ascii) : N := N_of_ascii c.

Definition between (lo hi n : N) : bool := (lo <=? n)%N && (n <=? hi)%N.

(** Code points with an upper-case form: A-Z and the Latin-1 capitals
    (0xC0-0xDE without the multiplication sign 0xD7). *)
Definition is_upper (c : ascii) : bool :=
  between 65 90 (code c) || between 192 214 (code c) || between 216 222 (code c).

Definition lower_char (c : ascii) : ascii :=
  if is_upper c then ascii_of_N (code c + 32) else c.

(** [s.lower()] *)
Fixpoint lower (s : string) : string :=
  match s with
  | EmptyString => EmptyString
  | String c s' => String (lower_char c) (lower s')
  end.

(** [s.startswith(p)] *)
Fixpoint startswith (p s : string) : bool :=
  match p, s with
  | EmptyString, _ => true
  | String _ _, EmptyString => false
  | String a p', String b s' => if decide (a = b) then startswith p' s' else false
  end.

(** [q in s] *)
Fixpoint contains (q s : string) : bool :=
  startswith q s ||
  match s with
  | EmptyString => false
  | String _ s' => contains q s'
  end.

(** [s[:n]] for a non-negative constant [n] *)
Fixpoint prefix_upto (n : nat) (s : string) : string :=
  match n, s with
  | S n', String c s' => String c (prefix_upto n' s')
  | _, _ => EmptyString
  end.

(** [s.split(sep)] for a one-character separator *)
Fixpoint split (sep : ascii) (s : string) : list string :=
  match s with
  | EmptyString => [EmptyString]
  | String c s' =>
      if decide (c = sep) then EmptyString :: split sep s'
      else match split sep s' with
           | piece :: rest => String c piece :: rest
           | [] => [String c EmptyString]
           end
  end.

(** [str.isspace] on one character: tab to carriage return, the four
    separators 0x1C-0x1F, space, NEL and the no-break space. *)
Definition isspace (c : ascii) : bool :=
  between 9 13 (code c) || between 28 32 (code c)
  || (code c =? 133)%N || (code c =? 160)%N.

Fixpoint lstrip (s : string) : string :=
  match s with
  | EmptyString => EmptyString
  | String c s' => if isspace c then lstrip s' else s
  end.

Fixpoint rstrip (s : string) : string :=
  match s with
  | EmptyString => EmptyString
  | String c s' =>
      match rstrip s' with
      | EmptyString => if isspace c then EmptyString else String c EmptyString
      | r => String c r
      end
  end.

(** [s.strip()] *)
Definition strip (s : string) : string := rstrip (lstrip s).

(** Truth value of a string: only the empty string is falsy. *)
Definition truthy (s : string) : bool :=
  match s with EmptyString => false | String _ _ => true end.

(** [l[:stop]] on a list, for any integer [stop]: a negative bound counts
    from the end of the list. *)
Definition slice_to {A} (stop : Z) (l : list A) : list A :=
  if (0 <=? stop)%Z then take (Z.to_nat stop) l
  else take (length l - Z.to_nat (- stop)) l.

End PyStr.

(** ** Dictionaries with observable order *)

Definition dict (V : Type) := list (string * V).

(** [d.get(k)] *)
Fixpoint dict_get {V} (d : dict V) (k : string) : option V :=
  match d with
  | [] => None
  | (k', v) :: d' => if decide (k = k') then Some v else dict_get d' k
  end.

(** [list(d.keys())] and [d.items()] *)
Definition dict_keys {V} (d : dict V) : list string := d.*1.
Definition dict_items {V} (d : dict V) : list (string * V) := d.

(** ** Handler outcomes *)

Inductive verror :=
  | Missing (field : string)
  | WrongType (field : string).

Inductive failure :=
  | HTTPException (status_code : nat) (detail : string)
  | RequestValidationError (errors : list verror)
  | StoreUnavailable
  | Unhandled.

Inductive result (A : Type) :=
  | Ok (body : A)
  | Fail (e : failure).
Arguments Ok {A} body.
Arguments Fail {A} e.

(** The status line the framework sends for each outcome. *)
Definition status_of {A} (r : result A) : nat :=
  match r with
  | Ok _ => 200
  | Fail (HTTPException c _) => c
  | Fail (RequestValidationError _) => 422
  | Fail StoreUnavailable => 500
  | Fail Unhandled => 500
  end.

(** ** The sample text store *)

Definition SAMPLE_TEXTS : dict (dict string) :=
  [ ("ESV",
      [ ("John 3:16", "For God so loved the world, that he gave his only Son, that whoever believes in him should not perish but have eternal life.");
        ("Psalm 23:1", "The Lord is my shepherd; I shall not want.") ]);
    ("NIV",
      [ ("John 3:16", "For God so loved the world that he gave his one and only Son, that whoever believes in him shall not perish but have eternal life.");
        ("Psalm 23:1", "The Lord is my shepherd, I lack nothing.") ]) ].

(** [SAMPLE_TEXTS.get(t, {})] *)
Definition verses_of (t : string) : dict string :=
  default [] (dict_get SAMPLE_TEXTS t).

(** ** Request models of the simple endpoints *)

Record SearchQuery := {
  q : string;
  translation : option string;
  language : option string;
  limit : Z
}.

(** [SearchQuery(q=..., translation=...)]: the other fields take their
    declared defaults. *)
Definition mkSearchQuery (q0 : string) (tr : option string) : SearchQuery :=
  {| q := q0; translation := tr; language := None; limit := 20 |}.

Record VoiceSearchQuery := {
  transcript : string;
  vs_translation : option string
}.

Record verse_body := {
  vb_reference : string;
  vb_translation : string;
  vb_text : string
}.

Record parallel_item := {
  pi_translation : string;
  pi_text : string
}.

Record parallel_body := {
  pb_reference : string;
  pb_items : list parallel_item
}.

Record search_hit := {
  hit_reference : string;
  hit_translation : string;
  hit_snippet : string
}.

(** ** Lookup and search handlers *)

(** Truth value of the result of [dict.get]: [None] and the empty string
    are both falsy. *)
Definition found (o : option string) : bool :=
  match o with
  | Some s => PyStr.truthy s
  | None => false
  end.

Definition get_verse (reference translation : string) : result verse_body :=
  let text := dict_get (verses_of translation) reference in
  if negb (found text) then
    Fail (HTTPException 404 "Verse not found in sample dataset")
  else
    Ok {| vb_reference := reference; vb_translation := translation;
          vb_text := default "" text |}.

(** The loop body of [get_parallel]: one requested translation. *)
Definition parallel_step (reference : string) (results : list parallel_item)
    (t : string) : list parallel_item :=
  let t := PyStr.strip t in
  let verse := dict_get (verses_of t) reference in
  if found verse then
    results ++ [ {| pi_translation := t; pi_text := default "" verse |} ]
  else results.

Definition get_parallel (reference translations : string) : result parallel_body :=
  let results :=
    foldl (parallel_step reference) [] (PyStr.split "," translations) in
  match results with
  | [] => Fail (HTTPException 404 "Reference not found")
  | _ => Ok {| pb_reference := reference; pb_items := results |}
  end.

(** The inner loop of [search_verses]: the verses of one translation. *)
Definition search_in (q0 t : string) (results : list search_hit)
    (item : string * string) : list search_hit :=
  let '(ref, txt) := item in
  if PyStr.contains q0 (PyStr.lower txt) then
    results ++ [ {| hit_reference := ref; hit_translation := t;
                    hit_snippet := PyStr.prefix_upto 160 txt |} ]
  else results.

Definition search_translation (q0 : string) (results : list search_hit)
    (t : string) : list search_hit :=
  foldl (search_in q0 t) results (dict_items (verses_of t)).

(** The translations that [search_verses] scans: the given one when it is
    truthy, every key of the table otherwise. *)
Definition scanned (tr : option string) : list string :=
  match tr with
  | Some t => if PyStr.truthy t then [t] else dict_keys SAMPLE_TEXTS
  | None => dict_keys SAMPLE_TEXTS
  end.

Definition search_verses (payload : SearchQuery) : result (list search_hit) :=
  let q0 := PyStr.lower (q payload) in
  let results := foldl (search_translation q0) [] (scanned (translation payload)) in
  Ok (PyStr.slice_to (limit payload) results).

Definition voice_search (payload : VoiceSearchQuery) : result (list search_hit) :=
  search_verses (mkSearchQuery (transcript payload) (vs_translation payload)).

(** ** Values and documents *)

(** A naive timestamp, as the driver decodes stored dates. *)
Record datetime := {
  year : nat; month : nat; day : nat;
  hour : nat; minute : nat; second : nat;
  microsecond : nat
}.

Inductive value :=
  | VNone
  | VBool (b : bool)
  | VInt (n : Z)
  | VStr (s : string)
  | VList (l : list value)
  | VObjectId (n : nat)
  | VDatetime (d : datetime).

Definition decimal (n : nat) : string := NilEmpty.string_of_uint (Nat.to_uint n).

Fixpoint zeros (n : nat) : string :=
  match n with
  | O => EmptyString
  | S n' => String "0" (zeros n')
  end.

(** [str(n).zfill(width)] *)
Definition zfill (width n : nat) : string :=
  let s := decimal n in zeros (width - String.length s) +:+ s.

(** [d.isoformat()]: the fraction is printed only when it is not zero. *)
Definition isoformat (d : datetime) : string :=
  zfill 4 (year d) +:+ "-" +:+ zfill 2 (month d) +:+ "-" +:+ zfill 2 (day d)
  +:+ "T" +:+ zfill 2 (hour d) +:+ ":" +:+ zfill 2 (minute d) +:+ ":"
  +:+ zfill 2 (second d)
  +:+ (if decide (microsecond d = 0) then "" else "." +:+ zfill 6 (microsecond d)).

(** The conversion applied to each value of a document by [to_json]:
    [hasattr(v, "isoformat")] holds for timestamps only. *)
Definition render (v : value) : value :=
  match v with
  | VDatetime d => VStr (isoformat d)
  | _ => v
  end.

(** ** Schema classes *)

Inductive ftype :=
  | TStr
  | TOptional (t : ftype)
  | TList (t : ftype).

Record field := {
  fname : string;
  fty : ftype;
  fdefault : option value
}.

Definition required (name : string) (t : ftype) : field :=
  {| fname := name; fty := t; fdefault := None |}.
Definition defaulted (name : string) (t : ftype) (d : value) : field :=
  {| fname := name; fty := t; fdefault := Some d |}.

(** Does a supplied value pass the field's annotation?  A [str] field takes
    any string; no length is asked for. *)
Fixpoint check_type (t : ftype) (v : value) : bool :=
  match t with
  | TStr => match v with VStr _ => true | _ => false end
  | TOptional t' => match v with VNone => true | _ => check_type t' v end
  | TList t' => match v with VList l => forallb (check_type t') l | _ => false end
  end.

Definition field_error (kwargs : gmap string value) (f : field) : option verror :=
  match kwargs !! fname f with
  | Some v => if check_type (fty f) v then None else Some (WrongType (fname f))
  | None => match fdefault f with
            | Some _ => None
            | None => Some (Missing (fname f))
            end
  end.

Definition field_value (kwargs : gmap string value) (f : field) : option value :=
  match kwargs !! fname f with
  | Some v => Some v
  | None => fdefault f
  end.

Definition set_field (kwargs : gmap string value) (f : field)
    (m : gmap string value) : gmap string value :=
  match field_value kwargs f with
  | Some v => <[fname f := v]> m
  | None => m
  end.

Inductive validated :=
  | Valid (model : gmap string value)
  | Invalid (errors : list verror).

(** Construction of a model from keyword arguments: every field is
    checked, the errors are collected in declaration order, unknown keys are
    ignored. *)
Definition construct (sch : list field) (kwargs : gmap string value) : validated :=
  match omap (field_error kwargs) sch with
  | [] => Valid (foldr (set_field kwargs) ∅ sch)
  | errs => Invalid errs
  end.

Definition model_dump (model : gmap string value) : gmap string value := model.

(** Request models of [main.py] *)

Definition CreateHighlight : list field :=
  [ required "user_id" TStr; required "reference" TStr;
    required "translation" TStr;
    defaulted "color" TStr (VStr "yellow");
    defaulted "note" (TOptional TStr) VNone ].

Definition CreateBookmark : list field :=
  [ required "user_id" TStr; required "reference" TStr;
    required "translation" TStr;
    defaulted "label" (TOptional TStr) VNone ].

Definition CreateNote : list field :=
  [ required "user_id" TStr; required "reference" TStr;
    required "translation" TStr; required "content" TStr ].

Definition CreatePlaylist : list field :=
  [ required "user_id" TStr; required "title" TStr;
    defaulted "mood" (TOptional TStr) VNone;
    defaulted "theme" (TOptional TStr) VNone;
    defaulted "references" (TList TStr) (VList []) ].

(** Collection schemas of [schemas.py] *)

Definition Highlight : list field :=
  [ required "user_id" TStr; required "reference" TStr;
    required "translation" TStr;
    defaulted "color" TStr (VStr "yellow");
    defaulted "note" (TOptional TStr) VNone ].

Definition Bookmark : list field :=
  [ required "user_id" TStr; required "reference" TStr;
    required "translation" TStr;
    defaulted "label" (TOptional TStr) VNone ].

Definition Note : list field :=
  [ required "user_id" TStr; required "reference" TStr;
    required "translation" TStr; required "content" TStr ].

Definition VersePlaylist : list field :=
  [ required "user_id" TStr; required "title" TStr;
    defaulted "mood" (TOptional TStr) VNone;
    defaulted "theme" (TOptional TStr) VNone;
    defaulted "references" (TList TStr) (VList []) ].

#[global] Instance value_eq_dec : EqDecision value.
Proof.
  refine (fix go (x y : value) {struct x} : Decision (x = y) :=
    match x, y with
    | VNone, VNone => left _
    | VBool a, VBool b => cast_if (decide (a = b))
    | VInt a, VInt b => cast_if (decide (a = b))
    | VStr a, VStr b => cast_if (decide (a = b))
    | VList a, VList b => cast_if (@list_eq_dec _ go a b)
    | VObjectId a, VObjectId b => cast_if (decide (a = b))
    | VDatetime a, VDatetime b =>
        cast_if (decide ((year a, month a, day a, hour a, minute a, second a,
                          microsecond a)
                         = (year b, month b, day b, hour b, minute b, second b,
                            microsecond b)))
    | _, _ => right _
    end); try congruence; destruct a, b; simpl in *; congruence.
Defined.

(** ** The document store *)

Record db := {
  reachable : bool;
  next_id : nat;
  collections : gmap string (list (gmap string value))
}.

(** Handlers that use the store: a state and error monad. *)
Definition handler (A : Type) : Type := db → result A * db.

Definition ret {A} (a : A) : handler A := λ st, (Ok a, st).
Definition raise {A} (e : failure) : handler A := λ st, (Fail e, st).
Definition bind {A B} (m : handler A) (k : A → handler B) : handler B :=
  λ st, match m st with
        | (Ok a, st') => k a st'
        | (Fail e, st') => (Fail e, st')
        end.

Notation "'let*' x ':=' m 'in' k" := (bind m (λ x, k))
  (at level 10, x name, m at level 100, k at level 200).

(** Exact-match filter: every key of the query is bound to the same value
    in the document. *)
Definition matches (query doc : gmap string value) : Prop :=
  map_Forall (λ k v, doc !! k = Some v) query.

#[global] Instance matches_dec query doc : Decision (matches query doc).
Proof. unfold matches. apply _. Defined.

Definition collection (st : db) (name : string) : list (gmap string value) :=
  default [] (collections st !! name).

Section Handlers.

(** Python's [str] built-in on stored values. *)
Variable py_str : value → string.

(** Modelled from the spec: [create_document] of the [database] module.
    Each create appends one record to the collection under an identifier
    the store generates, and returns that identifier; an unreachable store
    fails. *)
Definition create_document (collection_name : string)
    (data : gmap string value) : handler string :=
  λ st,
    if reachable st then
      let oid := VObjectId (next_id st) in
      (Ok (py_str oid),
       {| reachable := true;
          next_id := S (next_id st);
          collections :=
            <[collection_name :=
                collection st collection_name
                  ++ [<["_id" := oid]> (model_dump data)]]>
              (collections st) |})
    else (Fail StoreUnavailable, st).

(** Modelled from the spec: [get_documents] of the [database] module.
    The records of the collection that match the filter exactly, in
    storage order; an unreachable store fails. *)
Definition get_documents (collection_name : string)
    (filter_dict : gmap string value) : handler (list (gmap string value)) :=
  λ st,
    if reachable st then
      (Ok (filter (matches filter_dict) (collection st collection_name)), st)
    else (Fail StoreUnavailable, st).

Definition to_json (doc : gmap string value) : gmap string value :=
  if decide (doc = ∅) then doc
  else
    let doc :=
      match doc !! "_id" with
      | Some v => <["id" := VStr (py_str v)]> (delete "_id" doc)
      | None => doc
      end in
    render <$> doc.

(** The request body is parsed into the declared model before the handler
    runs; a body that does not fit is answered with 422. *)
Definition parse_body (sch : list field) (body : gmap string value)
    : handler (gmap string value) :=
  match construct sch body with
  | Valid payload => ret payload
  | Invalid errs => raise (RequestValidationError errs)
  end.

(** A model built inside a handler: its validation error is not caught. *)
Definition instantiate (sch : list field) (kwargs : gmap string value)
    : handler (gmap string value) :=
  match construct sch kwargs with
  | Valid record => ret record
  | Invalid _ => raise Unhandled
  end.

Definition create_highlight (body : gmap string value)
    : handler (gmap string value) :=
  let* payload := parse_body CreateHighlight body in
  let* record := instantiate Highlight (model_dump payload) in
  let* doc_id := create_document "highlight" record in
  ret {["id" := VStr doc_id]}.

Definition list_highlights (user_id : string)
    : handler (list (gmap string value)) :=
  let* docs := get_documents "highlight" {["user_id" := VStr user_id]} in
  ret (to_json <$> docs).

Definition create_bookmark (body : gmap string value)
    : handler (gmap string value) :=
  let* payload := parse_body CreateBookmark body in
  let* record := instantiate Bookmark (model_dump payload) in
  let* doc_id := create_document "bookmark" record in
  ret {["id" := VStr doc_id]}.

Definition list_bookmarks (user_id : string)
    : handler (list (gmap string value)) :=
  let* docs := get_documents "bookmark" {["user_id" := VStr user_id]} in
  ret (to_json <$> docs).

Definition create_note (body : gmap string value)
    : handler (gmap string value) :=
  let* payload := parse_body CreateNote body in
  let* record := instantiate Note (model_dump payload) in
  let* doc_id := create_document "note" record in
  ret {["id" := VStr doc_id]}.

(** The filter of [list_notes]: the reference is added only when the
    parameter is truthy. *)
Definition notes_query (user_id : string) (reference : option string)
    : gmap string value :=
  let query := {["user_id" := VStr user_id]} in
  match reference with
  | Some r => if PyStr.truthy r then <["reference" := VStr r]> query else query
  | None => query
  end.

Definition list_notes (user_id : string) (reference : option string)
    : handler (list (gmap string value)) :=
  let* docs := get_documents "note" (notes_query user_id reference) in
  ret (to_json <$> docs).

Definition create_playlist (body : gmap string value)
    : handler (gmap string value) :=
  let* payload := parse_body CreatePlaylist body in
  let* record := instantiate VersePlaylist (model_dump payload) in
  let* doc_id := create_document "verseplaylist" record in
  ret {["id" := VStr doc_id]}.

Definition list_playlists (user_id : string)
    : handler (list (gmap string value)) :=
  let* docs := get_documents "verseplaylist" {["user_id" := VStr user_id]} in
  ret (to_json <$> docs).

(** The search handlers do not touch the store. *)
Definition search_handler (payload : SearchQuery) : handler (list search_hit) :=
  λ st, (search_verses payload, st).

End Handlers.

(** ** Specification-level notions *)

(** The verse table as the set of its entries. *)
Definition pairs (tbl : dict (dict string)) : list (string * string * string) :=
  tbl ≫= λ '(t, verses), (λ '(r, txt), (t, r, txt)) <$> verses.

Definition all_pairs : list (string * string * string) := pairs SAMPLE_TEXTS.

(** [(translation, reference)] is present in the sample set with this text. *)
Definition stored (t r txt : string) : Prop := (t, r, txt) ∈ all_pairs.

(** [q] occurs in [s] at position [i]; [q] is a substring of [s]. *)
Definition occurs_at (q0 s : string) (i : nat) : Prop :=
  substring i (String.length q0) s = q0.

Definition Substring (q0 s : string) : Prop :=
  Exists (occurs_at q0 s) (seq 0 (S (String.length s))).

#[global] Instance Substring_dec q0 s : Decision (Substring q0 s).
Proof. unfold Substring, occurs_at. apply _. Defined.

(** The entry returned for a matching verse. *)
Definition hit_of (e : string * string * string) : search_hit :=
  {| hit_reference := e.1.2; hit_translation := e.1.1;
     hit_snippet := substring 0 160 e.2 |}.

(** A translation is scanned when none is given, or when it is the given
    one. *)
Definition in_scope (tr : option string) (t : string) : Prop :=
  tr = None ∨ tr = Some t.

#[global] Instance in_scope_dec tr t : Decision (in_scope tr t).
Proof. unfold in_scope. apply _. Defined.

(** Search as the specification words it: the matching entries of the scan,
    in table order, cut to the first [limit]. *)
Definition search_spec (p : SearchQuery) : list search_hit :=
  take (Z.to_nat (limit p))
    (hit_of <$>
       filter (λ e, in_scope (translation p) e.1.1
                    ∧ Substring (PyStr.lower (q p)) (PyStr.lower e.2))
         all_pairs).

(** An empty translation counts as no translation. *)
Definition effective (tr : option string) : option string :=
  match tr with
  | Some t => if PyStr.truthy t then Some t else None
  | None => None
  end.

Definition with_translation (p : SearchQuery) (tr : option string) : SearchQuery :=
  {| q := q p; translation := tr; language := language p; limit := limit p |}.

(** The translations a parallel request names. *)
Definition requested (translations : string) : list string :=
  PyStr.strip <$> PyStr.split "," translations.

(** Does a body bind this field acceptably?  Emptiness of a string plays
    no part. *)
Fixpoint accepts (t : ftype) (v : value) : Prop :=
  match t with
  | TStr => ∃ s, v = VStr s
  | TOptional t' => v = VNone ∨ accepts t' v
  | TList t' => ∃ l, v = VList l ∧ Forall (accepts t') l
  end.

Definition field_ok (body : gmap string value) (f : field) : Prop :=
  match body !! fname f with
  | Some v => accepts (fty f) v
  | None => is_Some (fdefault f)
  end.

Definition well_formed (sch : list field) (body : gmap string value) : Prop :=
  Forall (field_ok body) sch.

(** A required string field of a schema. *)
Definition required_str (sch : list field) (name : string) : Prop :=
  required name TStr ∈ sch.

Definition rejected {A} (r : result A) : Prop :=
  ∃ errs, r = Fail (RequestValidationError errs).

(** The text stored for a translation and reference, read off the entries. *)
Definition text_of (t r : string) : option string :=
  snd <$> head (filter (λ e, e.1 = (t, r)) all_pairs).

Definition mk_item (t txt : string) : parallel_item :=
  {| pi_translation := t; pi_text := txt |}.

(** The items a parallel lookup owes: one per requested translation that
    has the reference, in request order. *)
Definition parallel_spec (r : string) (req : list string) : list parallel_item :=
  omap (λ t, mk_item t <$> text_of t r) req.

(** No verse text contains the query. *)
Definition no_match (q0 : string) : Prop :=
  ∀ t r txt, stored t r txt → ¬ Substring (PyStr.lower q0) (PyStr.lower txt).

(** The search finds nothing: no verse text of the translations it scans
    contains the query. *)
Definition yields_nothing (p : SearchQuery) : Prop :=
  ∀ t r txt, stored t r txt → in_scope (effective (translation p)) t →
             ¬ Substring (PyStr.lower (q p)) (PyStr.lower txt).

(** What serialization owes for one stored document: the identifier is
    printed as a string under ["id"], the raw identifier is gone, a
    timestamp is printed in its ISO form, and every other field is kept as
    it is. *)
Definition serializes (py_str : value → string)
    (doc out : gmap string value) : Prop :=
  (∀ v, doc !! "_id" = Some v → out !! "id" = Some (VStr (py_str v)))
  ∧ out !! "_id" = None
  ∧ (∀ k d, k ≠ "id" → k ≠ "_id" → doc !! k = Some (VDatetime d) →
       out !! k = Some (VStr (isoformat d)))
  ∧ (∀ k, k ≠ "id" → k ≠ "_id" → (∀ d, doc !! k ≠ Some (VDatetime d)) →
       out !! k = doc !! k).

Definition has_user (u : string) (doc : gmap string value) : Prop :=
  doc !! "user_id" = Some (VStr u).

Definition has_reference (r : string) (doc : gmap string value) : Prop :=
  doc !! "reference" = Some (VStr r).

#[global] Instance has_user_dec u doc : Decision (has_user u doc).
Proof. unfold has_user. apply _. Defined.

#[global] Instance has_reference_dec r doc : Decision (has_reference r doc).
Proof. unfold has_reference. apply _. Defined.

(** An instance of [str] for the examples: an identifier prints as its
    number, a string as itself. *)
Definition example_str (v : value) : string :=
  match v with
  | VObjectId n => decimal n
  | VStr s => s
  | _ => ""
  end.

(** A store holding one note, for the examples. *)
Definition sample_store : db :=
  {| reachable := true;
     next_id := 1;
     collections :=
       {[ "note" :=
            [ {[ "_id" := VObjectId 0; "user_id" := VStr "u1";
                 "reference" := VStr "John 3:16"; "translation" := VStr "ESV";
                 "content" := VStr "God is love" ]} ] ]} |}.

(** The create endpoints: request model, collection and handler. *)
Definition create_routes (py_str : value → string)
    : list (list field * string * (gmap string value → handler (gmap string value))) :=
  [ (CreateHighlight, "highlight", create_highlight py_str);
    (CreateBookmark, "bookmark", create_bookmark py_str);
    (CreateNote, "note", create_note py_str);
    (CreatePlaylist, "verseplaylist", create_playlist py_str) ].

(** The steps every create handler runs, for a request model and a
    collection schema with the same fields. *)
Definition create_steps (py_str : value → string) (sch : list field)
    (name : string) (body : gmap string value) : handler (gmap string value) :=
  let* payload := parse_body sch body in
  let* record := instantiate sch (model_dump payload) in
  let* doc_id := create_document py_str name record in
  ret {["id" := VStr doc_id]}.

(** Defaults that fit their own annotation. *)
Definition sound_defaults (sch : list field) : Prop :=
  Forall (λ f, ∀ d, fdefault f = Some d → accepts (fty f) d) sch.

Definition empty_store : db :=
  {| reachable := true; next_id := 0; collections := ∅ |}.

Definition highlight_empty_reference : gmap string value :=
  {[ "user_id" := VStr "u1"; "reference" := VStr ""; "translation" := VStr "ESV" ]}.

Definition highlight_empty_user : gmap string value :=
  {[ "user_id" := VStr ""; "reference" := VStr "John 3:16";
     "translation" := VStr "ESV" ]}.

(** ** Auxiliary notions for the proofs *)

(** A verse of translation [t] as an entry of the table. *)
Definition tag (t : string) (item : string * string) : string * string * string :=
  (t, item.1, item.2).

(** The entries of a list of verses that match a lowered query. *)
Definition hits (q0 : string) (l : list (string * string * string)) : list search_hit :=
  hit_of <$> filter (λ e, Substring q0 (PyStr.lower e.2)) l.

(** ** Further routes of [main.py] *)

(** Outcome of [db.list_collection_names()]: the names, or an exception
    with its text.  The handle [db] of the [database] module is [None] when
    no database is configured. *)
Inductive enumeration :=
  | Names (names : list string)
  | Raises (message : string).

Record status_report := {
  st_backend : string;
  st_database : string;
  st_collections : list string;
  st_database_error : option string
}.

(** [test_database]: the status dictionary is updated in place, so what was
    written before an exception stays. *)
Definition test_database (db_handle : option enumeration) : status_report :=
  let status :=
    {| st_backend := "running"; st_database := "not_connected";
       st_collections := []; st_database_error := None |} in
  match db_handle with
  | Some listing =>
      let status :=
        {| st_backend := st_backend status; st_database := "connected";
           st_collections := st_collections status;
           st_database_error := st_database_error status |} in
      match listing with
      | Names names =>
          {| st_backend := st_backend status; st_database := st_database status;
             st_collections := names;
             st_database_error := st_database_error status |}
      | Raises message =>
          {| st_backend := st_backend status; st_database := st_database status;
             st_collections := st_collections status;
             st_database_error := Some message |}
      end
  | None => status
  end.

Definition get_translations : list string := ["ESV"; "NIV"].

Definition get_languages : list string := ["en"].

Record recommendation := {
  rec_reference : string;
  rec_reason : string
}.

Definition get_recommendations (user_id based_on : string) : list recommendation :=
  let items :=
    [ {| rec_reference := "Psalm 23:1"; rec_reason := "Because you read Psalms" |};
      {| rec_reference := "John 3:16"; rec_reason := "Popular across themes" |} ] in
  items.

Record crossrefs_body := {
  cr_reference : string;
  cr_cross_references : list string
}.

Definition cross_references (reference : string) : crossrefs_body :=
  let data : dict (list string) :=
    [ ("John 3:16", ["Romans 5:8"; "1 John 4:9"]);
      ("Psalm 23:1", ["John 10:11"; "Ezekiel 34:11"]) ] in
  {| cr_reference := reference;
     cr_cross_references := default [] (dict_get data reference) |}.

(** *** Audio *)

(** [s.replace(old, new)] for one-character [old] and [new]. *)
Fixpoint replace_char (old new : ascii) (s : string) : string :=
  match s with
  | EmptyString => EmptyString
  | String c s' =>
      String (if decide (c = old) then new else c) (replace_char old new s')
  end.

(** verse -> list of word timings (seconds) *)
Definition AUDIO_SYNC : dict (list float) :=
  [ ("John 3:16",
      [0.0; 0.5; 0.8; 1.1; 1.6; 2.1; 2.5; 2.9; 3.4; 3.8; 4.3; 4.8; 5.2; 5.7; 6.3]%float) ].

Record audio_body := {
  au_reference : string;
  au_translation : string;
  au_audio_url : string;
  au_timings : list float
}.

Definition audio_for_reference (reference translation : string) : audio_body :=
  {| au_reference := reference;
     au_translation := translation;
     au_audio_url :=
       "https://cdn.example.com/audio/" +:+ translation +:+ "/"
       +:+ replace_char " " "_" reference +:+ ".mp3";
     au_timings := default [] (dict_get AUDIO_SYNC reference) |}.

(** *** Templated texts *)

Record AIRequest := {
  ai_reference : option string;
  ai_chapter : option string;
  ai_prompt : option string
}.

(** [a or b] on optional strings: [a] when it is truthy, [b] otherwise. *)
Definition py_or (a b : option string) : option string :=
  if found a then a else b.

(** A value interpolated into an f-string. *)
Definition interpolate (o : option string) : string :=
  match o with
  | Some s => s
  | None => "None"
  end.

Definition explain_target (payload : AIRequest) : option string :=
  py_or (py_or (ai_reference payload) (ai_chapter payload)) (Some "the verse").

Definition ai_explain (payload : AIRequest) : string :=
  let target := explain_target payload in
  "Here's a concise explanation of " +:+ interpolate target
  +:+ " providing historical and theological context.".

Definition summary_target (payload : AIRequest) : option string :=
  py_or (py_or (ai_chapter payload) (ai_reference payload)) (Some "the passage").

Definition ai_summary (payload : AIRequest) : string :=
  let target := summary_target payload in
  "This summary captures the main themes and structure of "
  +:+ interpolate target +:+ ".".

Definition devotional_target (payload : AIRequest) : option string :=
  py_or (py_or (ai_reference payload) (ai_chapter payload)) (Some "today's reading").

Definition ai_devotional (payload : AIRequest) : string :=
  let target := devotional_target payload in
  "A short devotional for " +:+ interpolate target
  +:+ ", ending with an applicable prayer.".

Definition ai_prayer (payload : AIRequest) : string :=
  "Personalized prayer prompt: Take a deep breath, be still, and bring your concerns before God.".

(** ** Further auxiliary notions *)

(** The list a handler answered with; nothing when it failed. *)
Definition answered {A} (r : result (list A)) : list A :=
  match r with
  | Ok l => l
  | Fail _ => []
  end.

Definition items_of (r : result parallel_body) : list parallel_item :=
  match r with
  | Ok body => pb_items body
  | Fail _ => []
  end.

(** The list endpoints, the notes endpoint with a given reference
    parameter. *)
Definition list_endpoints (py_str : value → string) (reference : option string)
    : list (string → handler (list (gmap string value))) :=
  [ list_highlights py_str;
    list_bookmarks py_str;
    (λ user_id, list_notes py_str user_id reference);
    list_playlists py_str ].

(** The list endpoint that reads each collection. *)
Definition list_routes (py_str : value → string)
    : list (string * (string → handler (list (gmap string value)))) :=
  [ ("highlight", list_highlights py_str);
    ("bookmark", list_bookmarks py_str);
    ("note", λ user_id, list_notes py_str user_id None);
    ("verseplaylist", list_playlists py_str) ].

(** All entries that match a query within a scope, before any cut. *)
Definition all_hits (q0 : string) (tr : option string) : list search_hit :=
  hit_of <$>
    filter (λ e, in_scope (effective tr) e.1.1
                 ∧ Substring (PyStr.lower q0) (PyStr.lower e.2))
      all_pairs.

(** The record a create handler hands to the store for an accepted body:
    the request model, dumped and rebuilt as the collection schema. *)
Definition record_of (sch : list field) (body : gmap string value)
    : gmap string value :=
  foldr (set_field (model_dump (foldr (set_field body) ∅ sch))) ∅ sch.

(** * Properties *)

Section Strings.

Lemma substring_zero_zero s : substring 0 0 s = "".
Proof. by destruct s. Qed.

Lemma startswith_substring p s :
  PyStr.startswith p s = true ↔ substring 0 (String.length p) s = p.
Proof.
  revert s. induction p as [|a p IH]; intros s; simpl.
  - by rewrite substring_zero_zero.
  - destruct s as [|b s]; simpl; [done|].
    case_decide as Hab.
    + subst b. rewrite IH. split; [by intros ->|]. by intros [=].
    + split; [done|]. intros [=]. congruence.
Qed.

Lemma contains_Substring q0 s : PyStr.contains q0 s = true ↔ Substring q0 s.
Proof.
  unfold Substring. induction s as [|c s IH].
  - simpl. rewrite orb_false_r, startswith_substring.
    rewrite Exists_cons, Exists_nil. unfold occurs_at. tauto.
  - change (PyStr.contains q0 (String c s))
      with (PyStr.startswith q0 (String c s) || PyStr.contains q0 s).
    rewrite orb_true_iff, IH, startswith_substring.
    change (seq 0 (S (String.length (String c s))))
      with (0 :: seq 1 (S (String.length s))).
    rewrite Exists_cons, <-fmap_S_seq, Exists_fmap.
    split; (intros [H|H]; [by left|right]); exact H.
Qed.

Lemma prefix_upto_substring n s : PyStr.prefix_upto n s = substring 0 n s.
Proof.
  revert s. induction n as [|n IH]; intros [|c s]; simpl; try done.
  by rewrite IH.
Qed.

Lemma startswith_app p s :
  PyStr.startswith p s = true ↔ ∃ post, s = p +:+ post.
Proof.
  revert s. induction p as [|a p IH]; intros s; simpl.
  - split; [by exists s|done].
  - destruct s as [|b s].
    + split; [done|]. by intros [post [=]].
    + case_decide as Hab.
      * subst b. rewrite IH. split; intros [post Hpost]; exists post.
        -- by rewrite Hpost.
        -- by injection Hpost.
      * split; [done|]. intros [post [=]]. congruence.
Qed.

Lemma contains_app q0 s :
  PyStr.contains q0 s = true ↔ ∃ pre post, s = pre +:+ q0 +:+ post.
Proof.
  induction s as [|c s IH].
  - simpl. rewrite orb_false_r, startswith_app. split.
    + intros [post Hpost]. by exists "", post.
    + intros (pre & post & Hs). destruct pre; [|done]. by exists post.
  - change (PyStr.contains q0 (String c s))
      with (PyStr.startswith q0 (String c s) || PyStr.contains q0 s).
    rewrite orb_true_iff, IH, startswith_app. split.
    + intros [[post Hpost]|(pre & post & Hs)].
      * by exists "", post.
      * exists (String c pre), post. by rewrite Hs.
    + intros (pre & post & Hs). destruct pre as [|c' pre].
      * left. by exists post.
      * right. exists pre, post. by injection Hs.
Qed.

Lemma Substring_app q0 s :
  Substring q0 s ↔ ∃ pre post, s = pre +:+ q0 +:+ post.
Proof. by rewrite <-contains_Substring, contains_app. Qed.

End Strings.

Section Dicts.
Context {V : Type}.
Implicit Types (d : dict V) (k : string) (v : V).

Lemma dict_get_elem d k v : dict_get d k = Some v → (k, v) ∈ d.
Proof.
  induction d as [|[k' v'] d IH]; simpl; [done|].
  case_decide as Hk.
  - intros [= ->]. subst k'. apply list_elem_of_here.
  - intros Hget. apply list_elem_of_further. auto.
Qed.

Lemma dict_get_None d k : dict_get d k = None ↔ k ∉ d.*1.
Proof.
  induction d as [|[k' v'] d IH]; simpl.
  - split; [|done]. intros _. apply not_elem_of_nil.
  - rewrite not_elem_of_cons. case_decide as Hk.
    + subst k'. split; [done|]. by intros [? _].
    + rewrite IH. tauto.
Qed.

Lemma dict_get_Some d k v :
  NoDup d.*1 → dict_get d k = Some v ↔ (k, v) ∈ d.
Proof.
  intros Hnd. split; [apply dict_get_elem|].
  induction d as [|[k' v'] d IH]; simpl.
  - by intros ?%elem_of_nil.
  - apply NoDup_cons in Hnd as [Hk' Hnd]. simpl in *.
    intros [[= -> ->]|Hin]%elem_of_cons.
    + by rewrite decide_True.
    + case_decide as Hk; [|by apply IH].
      subst k'. destruct Hk'.
      apply list_elem_of_fmap. by exists (k, v).
Qed.

End Dicts.

Section Table.

Lemma elem_of_pairs tbl t r txt :
  (t, r, txt) ∈ pairs tbl ↔ ∃ verses, (t, verses) ∈ tbl ∧ (r, txt) ∈ verses.
Proof.
  unfold pairs. rewrite list_elem_of_bind. split.
  - intros ([t' verses] & Hin & Htbl).
    apply list_elem_of_fmap in Hin as ([r' txt'] & [= -> -> ->] & Hin).
    by exists verses.
  - intros (verses & Htbl & Hin). exists (t, verses). split; [|done].
    apply list_elem_of_fmap. by exists (r, txt).
Qed.

Lemma pairs_lookup tbl t r txt :
  NoDup tbl.*1 → Forall (λ e, NoDup e.2.*1) tbl →
  dict_get (default [] (dict_get tbl t)) r = Some txt ↔ (t, r, txt) ∈ pairs tbl.
Proof.
  intros Hnd Hall. rewrite elem_of_pairs. split.
  - destruct (dict_get tbl t) as [verses|] eqn:Ht; simpl; [|done].
    intros Hr. exists verses. split; by apply dict_get_elem.
  - intros (verses & Ht & Hr).
    assert (NoDup verses.*1) as Hnd'.
    { rewrite Forall_forall in Hall. apply (Hall _ Ht). }
    apply (dict_get_Some tbl t verses Hnd) in Ht. rewrite Ht. simpl.
    by apply dict_get_Some.
Qed.

Lemma SAMPLE_TEXTS_keys : NoDup SAMPLE_TEXTS.*1.
Proof. compute_done. Qed.

Lemma SAMPLE_TEXTS_refs : Forall (λ e, NoDup e.2.*1) SAMPLE_TEXTS.
Proof. compute_done. Qed.

Lemma lookup_stored t r txt :
  dict_get (verses_of t) r = Some txt ↔ stored t r txt.
Proof. apply pairs_lookup; [apply SAMPLE_TEXTS_keys|apply SAMPLE_TEXTS_refs]. Qed.

Lemma stored_truthy t r txt : stored t r txt → PyStr.truthy txt = true.
Proof.
  unfold stored. revert t r txt.
  assert (Forall (λ e, PyStr.truthy e.2 = true) all_pairs) as Hall
    by compute_done.
  intros t r txt Hin. rewrite Forall_forall in Hall. apply (Hall _ Hin).
Qed.

Lemma stored_short t r txt : stored t r txt → String.length txt ≤ 160.
Proof.
  unfold stored.
  assert (Forall (λ e, String.length e.2 ≤ 160) all_pairs) as Hall
    by compute_done.
  intros Hin. rewrite Forall_forall in Hall. apply (Hall _ Hin).
Qed.

Lemma stored_functional t r txt txt' :
  stored t r txt → stored t r txt' → txt = txt'.
Proof. rewrite <-!lookup_stored. congruence. Qed.

End Table.

(** C1.  A verse lookup for a pair present in the sample set answers 200
    with exactly the stored text; for a pair absent from the sample set it
    answers 404. *)
Theorem get_verse_spec (t r : string) :
  (∀ txt, stored t r txt →
     get_verse r t
     = Ok {| vb_reference := r; vb_translation := t; vb_text := txt |})
  ∧ ((∀ txt, ¬ stored t r txt) →
     get_verse r t = Fail (HTTPException 404 "Verse not found in sample dataset")).
Proof.
  unfold get_verse. split.
  - intros txt Hst. pose proof (stored_truthy _ _ _ Hst) as Htr.
    apply lookup_stored in Hst. rewrite Hst. simpl. by rewrite Htr.
  - intros Habs. destruct (dict_get (verses_of t) r) as [txt|] eqn:Hget; [|done].
    apply lookup_stored in Hget. by destruct (Habs txt).
Qed.

Lemma get_verse_spec_witness :
  get_verse "Psalm 23:1" "NIV"
  = Ok {| vb_reference := "Psalm 23:1"; vb_translation := "NIV";
          vb_text := "The Lord is my shepherd, I lack nothing." |}
  ∧ get_verse "Psalm 23:2" "NIV"
    = Fail (HTTPException 404 "Verse not found in sample dataset").
Proof.
  split.
  - apply (get_verse_spec "NIV" "Psalm 23:1"). unfold stored. compute_done.
  - apply (get_verse_spec "NIV" "Psalm 23:2"). intros txt Hin.
    unfold stored, all_pairs in Hin. simpl in Hin.
    repeat (apply elem_of_cons in Hin as [[=]|Hin]). by apply elem_of_nil in Hin.
Defined.

Section Filters.
Context {A : Type} (P : A → Prop) `{!∀ x, Decision (P x)}.

Lemma filter_all (l : list A) : Forall P l → filter P l = l.
Proof.
  induction 1 as [|x l Hx _ IH]; [done|]. by rewrite filter_cons_True, IH.
Qed.

Lemma filter_none (l : list A) : Forall (λ x, ¬ P x) l → filter P l = [].
Proof.
  induction 1 as [|x l Hx _ IH]; [done|]. by rewrite filter_cons_False.
Qed.

End Filters.

Section Search.

Lemma pairs_cons t verses tbl :
  pairs ((t, verses) :: tbl) = (tag t <$> verses) ++ pairs tbl.
Proof.
  unfold pairs. rewrite bind_cons. f_equal.
  apply list_fmap_ext. by intros i [r txt] _.
Qed.

Lemma hits_app q0 l1 l2 : hits q0 (l1 ++ l2) = hits q0 l1 ++ hits q0 l2.
Proof. unfold hits. by rewrite filter_app, fmap_app. Qed.

Lemma foldl_search_in q0 t results items :
  foldl (search_in q0 t) results items = results ++ hits q0 (tag t <$> items).
Proof.
  revert results. induction items as [|[r txt] items IH]; intros results.
  - simpl. by rewrite app_nil_r.
  - cbn [foldl fmap list_fmap]. rewrite IH. unfold hits, search_in.
    rewrite filter_cons. cbn [tag fst snd].
    destruct (PyStr.contains q0 (PyStr.lower txt)) eqn:Hc.
    + apply contains_Substring in Hc. rewrite decide_True by done.
      rewrite <-app_assoc, fmap_cons. unfold hit_of at 2. cbn [fst snd app].
      by rewrite prefix_upto_substring.
    + rewrite decide_False; [done|].
      rewrite <-contains_Substring. congruence.
Qed.

Lemma search_translation_hits q0 results t :
  search_translation q0 results t
  = results ++ hits q0 (tag t <$> verses_of t).
Proof. apply foldl_search_in. Qed.

Lemma foldl_search_translation q0 results (tbl : dict (dict string)) :
  (∀ t verses, (t, verses) ∈ tbl → verses_of t = verses) →
  foldl (search_translation q0) results tbl.*1 = results ++ hits q0 (pairs tbl).
Proof.
  revert results. induction tbl as [|[t verses] tbl IH]; intros results Htbl.
  - simpl. by rewrite app_nil_r.
  - rewrite fmap_cons. cbn [foldl fst].
    rewrite IH by (intros; apply Htbl; by apply list_elem_of_further).
    rewrite search_translation_hits, (Htbl t verses) by apply list_elem_of_here.
    by rewrite pairs_cons, hits_app, app_assoc.
Qed.

Lemma verses_of_elem t verses : (t, verses) ∈ SAMPLE_TEXTS → verses_of t = verses.
Proof.
  intros Hin. unfold verses_of.
  apply (dict_get_Some _ _ _ SAMPLE_TEXTS_keys) in Hin. by rewrite Hin.
Qed.

(** Restricting the table to one translation is reading its dictionary. *)
Lemma filter_pairs_key (tbl : dict (dict string)) t :
  NoDup tbl.*1 →
  filter (λ e, e.1.1 = t) (pairs tbl) = tag t <$> default [] (dict_get tbl t).
Proof.
  induction tbl as [|[k verses] tbl IH]; intros Hnd; [done|].
  apply NoDup_cons in Hnd as [Hk Hnd]. simpl in Hk.
  rewrite pairs_cons, filter_app. simpl. case_decide as Hkt.
  - subst k. simpl.
    assert (dict_get tbl t = None) as Hnone by by apply dict_get_None.
    rewrite IH, Hnone, app_nil_r by done. simpl.
    apply filter_all. apply Forall_fmap, Forall_true. by intros.
  - rewrite IH by done.
    rewrite (filter_none (λ e, e.1.1 = t)); [done|].
    apply Forall_fmap, Forall_true. intros [r txt]. simpl. congruence.
Qed.

(** What the two loops of [search_verses] collect. *)
Lemma scan_hits q0 tr :
  foldl (search_translation q0) [] (scanned tr)
  = hit_of <$>
      filter (λ e, in_scope (effective tr) e.1.1 ∧ Substring q0 (PyStr.lower e.2))
        all_pairs.
Proof.
  assert (∀ t, PyStr.truthy t = true →
    foldl (search_translation q0) [] [t]
    = hit_of <$>
        filter (λ e, in_scope (Some t) e.1.1 ∧ Substring q0 (PyStr.lower e.2))
          all_pairs) as Hone.
  { intros t _. simpl. rewrite search_translation_hits. simpl. unfold hits.
    f_equal. unfold verses_of.
    rewrite <-(filter_pairs_key SAMPLE_TEXTS t SAMPLE_TEXTS_keys).
    rewrite list_filter_filter. apply list_filter_iff.
    intros e. unfold in_scope. split.
    - intros [? <-]. split; [by right|done].
    - intros [[[=]|[= ->]] ?]. done. }
  assert (foldl (search_translation q0) [] (dict_keys SAMPLE_TEXTS)
    = hit_of <$>
        filter (λ e, in_scope None e.1.1 ∧ Substring q0 (PyStr.lower e.2))
          all_pairs) as Hall.
  { unfold dict_keys. rewrite foldl_search_translation by apply verses_of_elem.
    simpl. unfold hits. f_equal. apply list_filter_iff.
    intros e. unfold in_scope. split; [by intros ?; split; [left|]|by intros [_ ?]]. }
  unfold scanned, effective. destruct tr as [t|]; [|done].
  destruct (PyStr.truthy t) eqn:Ht; [by apply Hone|done].
Qed.

Lemma slice_to_nonneg {A} (n : Z) (l : list A) :
  (0 ≤ n)%Z → PyStr.slice_to n l = take (Z.to_nat n) l.
Proof. intros Hn. unfold PyStr.slice_to. by rewrite (proj2 (Z.leb_le 0 n)). Qed.

Lemma slice_to_nil {A} (n : Z) : PyStr.slice_to n (@nil A) = [].
Proof. unfold PyStr.slice_to. destruct (0 <=? n)%Z; apply take_nil. Qed.

End Search.

(** C2, amended.  For a non-negative limit the search returns the first
    [limit] of the entries whose lowered text contains the lowered query, in
    table order, each with the first 160 characters of its text; it scans
    every translation when none is given or the given one is empty, and only
    the given translation otherwise. *)
Theorem search_verses_amended (p : SearchQuery) :
  (0 ≤ limit p)%Z →
  search_verses p = Ok (search_spec (with_translation p (effective (translation p)))).
Proof.
  intros Hlimit. unfold search_verses, search_spec. simpl.
  by rewrite scan_hits, slice_to_nonneg.
Qed.

Lemma search_verses_amended_witness :
  search_verses {| q := "LORD"; translation := Some "NIV"; language := None; limit := 1 |}
  = Ok [ {| hit_reference := "Psalm 23:1"; hit_translation := "NIV";
            hit_snippet := "The Lord is my shepherd, I lack nothing." |} ].
Proof.
  rewrite (search_verses_amended
             {| q := "LORD"; translation := Some "NIV"; language := None; limit := 1 |});
    [reflexivity | simpl; lia].
Defined.

(** C2 as stated fails: an empty translation is scanned as if none were
    given, and a negative limit drops entries from the end instead of
    keeping at most [limit] of them. *)
Lemma search_verses_counterexample :
  search_verses {| q := "shepherd"; translation := Some ""; language := None; limit := 20 |}
  ≠ Ok (search_spec
          {| q := "shepherd"; translation := Some ""; language := None; limit := 20 |})
  ∧ search_verses {| q := "shepherd"; translation := None; language := None; limit := -1 |}
    ≠ Ok (search_spec
            {| q := "shepherd"; translation := None; language := None; limit := -1 |}).
Proof. split; vm_compute; discriminate. Qed.

Section Parallel.

Lemma all_pairs_keys : NoDup all_pairs.*1.
Proof. compute_done. Qed.

Lemma text_of_stored t r txt : text_of t r = Some txt ↔ stored t r txt.
Proof.
  unfold text_of, stored. pose proof all_pairs_keys as Hnd.
  induction all_pairs as [|[k v] l IH]; simpl.
  - split; [done|]. by intros ?%elem_of_nil.
  - apply NoDup_cons in Hnd as [Hk Hnd]. simpl in Hk.
    rewrite filter_cons, elem_of_cons. simpl. case_decide as Hkv.
    + subst k. simpl. split; [intros [= ->]; by left|].
      intros [[= ->]|Hin]; [done|]. destruct Hk.
      apply list_elem_of_fmap. by exists (t, r, txt).
    + rewrite IH by done. split; [by right|].
      intros [[= <- <-]|Hin]; [done|done].
Qed.

Lemma text_of_lookup t r : dict_get (verses_of t) r = text_of t r.
Proof.
  apply option_eq. intros txt. by rewrite lookup_stored, text_of_stored.
Qed.

Lemma foldl_parallel_step r results ts :
  foldl (parallel_step r) results ts
  = results ++ parallel_spec r (PyStr.strip <$> ts).
Proof.
  revert results. induction ts as [|t ts IH]; intros results.
  - simpl. by rewrite app_nil_r.
  - rewrite fmap_cons. cbn [foldl]. rewrite IH. unfold parallel_step, parallel_spec.
    cbn [omap list_omap]. rewrite text_of_lookup.
    destruct (text_of (PyStr.strip t) r) as [txt|] eqn:Ht; simpl; [|done].
    apply text_of_stored, stored_truthy in Ht. rewrite Ht.
    by rewrite <-app_assoc.
Qed.

Lemma parallel_spec_nil r req :
  parallel_spec r req = [] ↔ ∀ t txt, t ∈ req → ¬ stored t r txt.
Proof.
  unfold parallel_spec. induction req as [|t req IH]; simpl.
  - split; [|done]. by intros _ t txt ?%elem_of_nil.
  - destruct (text_of t r) as [txt|] eqn:Ht; simpl.
    + split; [done|]. intros Habs. destruct (Habs t txt).
      * apply list_elem_of_here.
      * by apply text_of_stored.
    + rewrite IH. split.
      * intros Habs t' txt' [->|Hin]%elem_of_cons; [|by apply Habs].
        rewrite <-text_of_stored. congruence.
      * intros Habs t' txt' Hin. apply Habs. by apply list_elem_of_further.
Qed.

End Parallel.

(** C4.  A parallel lookup answers 404 exactly when no requested
    translation has the reference; when some requested translation has it,
    the lookup succeeds and its items are the requested translations that
    have the reference, each with its stored text, in request order. *)
Theorem get_parallel_spec (r translations : string) :
  (get_parallel r translations = Fail (HTTPException 404 "Reference not found")
   ↔ ∀ t txt, t ∈ requested translations → ¬ stored t r txt)
  ∧ ((∃ t txt, t ∈ requested translations ∧ stored t r txt) →
     get_parallel r translations
     = Ok {| pb_reference := r;
             pb_items := parallel_spec r (requested translations) |})
  ∧ (∀ body, get_parallel r translations = Ok body →
       pb_reference body = r
       ∧ pb_items body = parallel_spec r (requested translations))
  ∧ (∀ t txt, mk_item t txt ∈ parallel_spec r (requested translations)
       ↔ t ∈ requested translations ∧ stored t r txt)
  ∧ (∀ t txt, text_of t r = Some txt ↔ stored t r txt).
Proof.
  unfold get_parallel. rewrite foldl_parallel_step. simpl.
  fold (requested translations). split; [|split; [|split; [|split]]].
  - rewrite <-parallel_spec_nil.
    destruct (parallel_spec r (requested translations)); split; done.
  - intros (t & txt & Hin & Hst).
    destruct (parallel_spec r (requested translations)) eqn:Hspec; [|done].
    by destruct (proj1 (parallel_spec_nil r (requested translations)) Hspec t txt).
  - intros body.
    destruct (parallel_spec r (requested translations)); [done|].
    by intros [= <-].
  - intros t txt. unfold parallel_spec. rewrite list_elem_of_omap. split.
    + intros (t' & Hin & Hitem).
      destruct (text_of t' r) as [txt'|] eqn:Ht; simplify_eq/=.
      split; [done|]. by apply text_of_stored.
    + intros [Hin Hst]. exists t. split; [done|].
      apply text_of_stored in Hst. by rewrite Hst.
  - intros t txt. apply text_of_stored.
Qed.

Lemma get_parallel_spec_witness :
  get_parallel "John 3:16" "KJV, NASB"
  = Fail (HTTPException 404 "Reference not found")
  ∧ get_parallel "Psalm 23:1" "KJV, NIV ,ESV"
    = Ok {| pb_reference := "Psalm 23:1";
            pb_items :=
              [ mk_item "NIV" "The Lord is my shepherd, I lack nothing.";
                mk_item "ESV" "The Lord is my shepherd; I shall not want." ] |}.
Proof.
  split.
  - apply (get_parallel_spec "John 3:16" "KJV, NASB").
    intros t txt Hin Hst. vm_compute in Hin. unfold stored in Hst.
    vm_compute in Hst.
    repeat (apply elem_of_cons in Hin as [->|Hin]);
      try (by apply elem_of_nil in Hin);
      repeat (apply elem_of_cons in Hst as [[=]|Hst]);
      by apply elem_of_nil in Hst.
  - rewrite (proj1 (proj2 (get_parallel_spec "Psalm 23:1" "KJV, NIV ,ESV")));
      [reflexivity|].
    exists "NIV", "The Lord is my shepherd, I lack nothing.". split.
    + apply list_elem_of_further, list_elem_of_here.
    + unfold stored. compute_done.
Defined.

Section SearchOutcome.

Lemma no_match_hits q0 tr :
  no_match q0 →
  foldl (search_translation (PyStr.lower q0)) [] (scanned tr) = [].
Proof.
  intros Hno. rewrite scan_hits.
  rewrite filter_none; [done|].
  apply Forall_forall. intros [[t r] txt] Hin [_ Hsub]. by apply (Hno t r txt).
Qed.

Lemma yields_nothing_hits p :
  yields_nothing p →
  foldl (search_translation (PyStr.lower (q p))) [] (scanned (translation p)) = [].
Proof.
  intros Hno. rewrite scan_hits.
  rewrite filter_none; [done|].
  apply Forall_forall. intros [[t r] txt] Hin [Hscope Hsub].
  by apply (Hno t r txt).
Qed.

Lemma get_verse_Fail t r :
  (∀ txt, ¬ stored t r txt) →
  get_verse r t = Fail (HTTPException 404 "Verse not found in sample dataset").
Proof.
  intros Habs. unfold get_verse.
  destruct (dict_get (verses_of t) r) as [txt|] eqn:Hget; [|done].
  apply lookup_stored in Hget. by destruct (Habs txt).
Qed.

Lemma get_parallel_Fail r translations :
  (∀ t txt, t ∈ requested translations → ¬ stored t r txt) →
  get_parallel r translations = Fail (HTTPException 404 "Reference not found").
Proof.
  intros Habs%parallel_spec_nil. unfold get_parallel.
  rewrite foldl_parallel_step. simpl. fold (requested translations).
  by rewrite Habs.
Qed.

End SearchOutcome.

(** C5, amended.  A search is never answered with an error: whenever it
    finds nothing, because no verse text of the scanned translations
    contains the query, it answers 200 with an empty list.  Only the verse
    and parallel lookups turn an empty outcome into a 404 with a short
    detail string. *)
Theorem search_empty_is_ok (p : SearchQuery) :
  status_of (search_verses p) = 200
  ∧ (yields_nothing p → search_verses p = Ok [])
  ∧ (no_match (q p) → search_verses p = Ok [])
  ∧ (∀ r t, (∀ txt, ¬ stored t r txt) →
       get_verse r t = Fail (HTTPException 404 "Verse not found in sample dataset"))
  ∧ (∀ r translations,
       (∀ t txt, t ∈ requested translations → ¬ stored t r txt) →
       get_parallel r translations = Fail (HTTPException 404 "Reference not found")).
Proof.
  split; [done|]. split; [|split; [|split]].
  - intros Hno. unfold search_verses. by rewrite yields_nothing_hits, slice_to_nil.
  - intros Hno. unfold search_verses. by rewrite no_match_hits, slice_to_nil.
  - intros r t. apply get_verse_Fail.
  - apply get_parallel_Fail.
Qed.

Lemma no_match_zzz : no_match "zzz".
Proof.
  assert (Forall (λ e, ¬ Substring (PyStr.lower "zzz") (PyStr.lower e.2)) all_pairs)
    as Hall by compute_done.
  intros t r txt Hin. rewrite Forall_forall in Hall. apply (Hall _ Hin).
Defined.

Lemma search_empty_is_ok_witness :
  search_verses {| q := "zzz"; translation := None; language := None; limit := 20 |}
  = Ok []
  ∧ search_verses {| q := "lack"; translation := Some "ESV"; language := None;
                     limit := 20 |}
    = Ok [].
Proof.
  split.
  - apply (proj1 (proj2 (proj2 (search_empty_is_ok
             {| q := "zzz"; translation := None; language := None; limit := 20 |})))).
    exact no_match_zzz.
  - apply (proj1 (proj2 (search_empty_is_ok
             {| q := "lack"; translation := Some "ESV"; language := None;
                limit := 20 |}))).
    assert (Forall (λ e, in_scope (Some "ESV") e.1.1
                         → ¬ Substring "lack" (PyStr.lower e.2)) all_pairs)
      as Hall by compute_done.
    intros t r txt Hin. rewrite Forall_forall in Hall. exact (Hall _ Hin).
Defined.

(** C5 as stated fails: a search without matches is not turned into a
    4xx response. *)
Lemma search_empty_counterexample :
  ¬ (∀ p, no_match (q p) →
       ∃ code detail, search_verses p = Fail (HTTPException code detail)
                      ∧ 400 ≤ code < 500).
Proof.
  intros Hclaim.
  destruct (Hclaim {| q := "zzz"; translation := None; language := None; limit := 20 |})
    as (code & detail & Hfail & _); [exact no_match_zzz|].
  vm_compute in Hfail. discriminate.
Qed.

(** C6.  Voice search is the search for the transcript, taken verbatim,
    with the same translation and the default limit. *)
Theorem voice_search_delegates (s : string) (tr : option string) :
  voice_search {| transcript := s; vs_translation := tr |}
  = search_verses {| q := s; translation := tr; language := None; limit := 20 |}.
Proof. reflexivity. Qed.

Section Serialization.
Variable py_str : value → string.
Implicit Types (doc out : gmap string value) (st : db).

Lemma render_not_datetime v : (∀ d, v ≠ VDatetime d) → render v = v.
Proof. destruct v; try done. intros Hd. by destruct (Hd d). Qed.

Lemma to_json_id doc v :
  doc !! "_id" = Some v → to_json py_str doc !! "id" = Some (VStr (py_str v)).
Proof.
  intros Hid. unfold to_json. case_decide as Hempty.
  - subst doc. by rewrite lookup_empty in Hid.
  - rewrite Hid, lookup_fmap, lookup_insert_eq. done.
Qed.

Lemma to_json_no_raw_id doc : to_json py_str doc !! "_id" = None.
Proof.
  unfold to_json. case_decide as Hempty.
  - subst doc. apply lookup_empty.
  - destruct (doc !! "_id") as [v|] eqn:Hid.
    + rewrite lookup_fmap, lookup_insert_ne, lookup_delete_eq by done. done.
    + by rewrite lookup_fmap, Hid.
Qed.

Lemma to_json_other doc k :
  k ≠ "id" → k ≠ "_id" → to_json py_str doc !! k = render <$> doc !! k.
Proof.
  intros Hk1 Hk2. unfold to_json. case_decide as Hempty.
  - subst doc. by rewrite lookup_empty.
  - destruct (doc !! "_id") as [v|] eqn:Hid.
    + by rewrite lookup_fmap, lookup_insert_ne, lookup_delete_ne.
    + by rewrite lookup_fmap.
Qed.

Lemma to_json_serializes doc : serializes py_str doc (to_json py_str doc).
Proof.
  split; [|split; [|split]].
  - apply to_json_id.
  - apply to_json_no_raw_id.
  - intros k d Hk1 Hk2 Hdoc. by rewrite to_json_other, Hdoc.
  - intros k Hk1 Hk2 Hdoc. rewrite to_json_other by done.
    destruct (doc !! k) as [v|]; [|done]. simpl. f_equal.
    apply render_not_datetime. intros d ->. by destruct (Hdoc d).
Qed.

Lemma to_json_str_field doc k s :
  k ≠ "id" → k ≠ "_id" →
  doc !! k = Some (VStr s) → to_json py_str doc !! k = Some (VStr s).
Proof. intros Hk1 Hk2 Hdoc. by rewrite to_json_other, Hdoc. Qed.

(** Every list endpoint runs the same two steps. *)
Lemma list_run name query st :
  (let* docs := get_documents name query in ret (to_json py_str <$> docs)) st
  = (if reachable st
     then Ok (to_json py_str <$> filter (matches query) (collection st name))
     else Fail StoreUnavailable, st).
Proof. unfold bind, get_documents, ret. by destruct (reachable st). Qed.

Lemma matches_user u doc : matches {["user_id" := VStr u]} doc ↔ has_user u doc.
Proof. unfold matches. by rewrite map_Forall_singleton. Qed.

Lemma matches_user_reference u r doc :
  matches (<["reference" := VStr r]> {["user_id" := VStr u]}) doc
  ↔ has_user u doc ∧ has_reference r doc.
Proof.
  unfold matches. rewrite map_Forall_insert by done.
  rewrite map_Forall_singleton. unfold has_user, has_reference. tauto.
Qed.

Lemma serialized_list docs :
  Forall2 (serializes py_str) docs (to_json py_str <$> docs).
Proof. apply Forall2_fmap_r, Forall_Forall2_diag, Forall_true, to_json_serializes. Qed.

End Serialization.

(** C7.  Every list endpoint returns, for each stored document it selects,
    the document with its identifier printed as a string under ["id"], the
    raw identifier removed, timestamps in ISO form and all other fields
    unchanged. *)
Theorem list_endpoints_serialized (py_str : value → string) (u : string)
    (reference : option string) (st : db) :
  reachable st = true →
  ∃ hs bs ns ps,
    (list_highlights py_str u st).1 = Ok hs
    ∧ Forall2 (serializes py_str) (filter (has_user u) (collection st "highlight")) hs
    ∧ (list_bookmarks py_str u st).1 = Ok bs
    ∧ Forall2 (serializes py_str) (filter (has_user u) (collection st "bookmark")) bs
    ∧ (list_notes py_str u reference st).1 = Ok ns
    ∧ Forall2 (serializes py_str)
        (filter (matches (notes_query u reference)) (collection st "note")) ns
    ∧ (list_playlists py_str u st).1 = Ok ps
    ∧ Forall2 (serializes py_str)
        (filter (has_user u) (collection st "verseplaylist")) ps.
Proof.
  intros Hup.
  unfold list_highlights, list_bookmarks, list_notes, list_playlists.
  rewrite !list_run, Hup. simpl.
  rewrite !(list_filter_iff (matches {["user_id" := VStr u]}) (has_user u))
    by apply matches_user.
  do 4 eexists. repeat split; try reflexivity; apply serialized_list.
Qed.

Lemma list_endpoints_serialized_witness :
  ∃ hs bs ns ps,
    (list_highlights example_str "u1" sample_store).1 = Ok hs
    ∧ Forall2 (serializes example_str)
        (filter (has_user "u1") (collection sample_store "highlight")) hs
    ∧ (list_bookmarks example_str "u1" sample_store).1 = Ok bs
    ∧ Forall2 (serializes example_str)
        (filter (has_user "u1") (collection sample_store "bookmark")) bs
    ∧ (list_notes example_str "u1" (Some "John 3:16") sample_store).1 = Ok ns
    ∧ Forall2 (serializes example_str)
        (filter (matches (notes_query "u1" (Some "John 3:16")))
           (collection sample_store "note")) ns
    ∧ (list_playlists example_str "u1" sample_store).1 = Ok ps
    ∧ Forall2 (serializes example_str)
        (filter (has_user "u1") (collection sample_store "verseplaylist")) ps.
Proof.
  apply (list_endpoints_serialized example_str "u1" (Some "John 3:16") sample_store).
  reflexivity.
Defined.

(** C8, amended.  For a non-empty reference the notes endpoint returns
    exactly the notes of the user for that reference, serialized: no note
    of another user or another reference is returned. *)
Theorem list_notes_filtered (py_str : value → string) (u r : string) (st : db)
    (outs : list (gmap string value)) :
  r ≠ "" →
  (list_notes py_str u (Some r) st).1 = Ok outs →
  outs = to_json py_str
           <$> filter (λ doc, has_user u doc ∧ has_reference r doc)
                 (collection st "note")
  ∧ Forall (λ out, has_user u out ∧ has_reference r out) outs.
Proof.
  intros Hr. unfold list_notes. rewrite list_run.
  destruct (reachable st); [|done]. simpl. intros [= <-].
  unfold notes_query. destruct r as [|c r]; [done|]. simpl.
  rewrite (list_filter_iff _ (λ doc, has_user u doc ∧ has_reference (String c r) doc))
    by apply matches_user_reference.
  split; [done|].
  apply Forall_fmap, Forall_forall. intros doc [[Hu Href] _]%list_elem_of_filter.
  split; by apply to_json_str_field.
Qed.

Lemma list_notes_filtered_witness :
  Forall (λ out, has_user "u1" out ∧ has_reference "John 3:16" out)
    [ {[ "id" := VStr "0"; "user_id" := VStr "u1";
         "reference" := VStr "John 3:16"; "translation" := VStr "ESV";
         "content" := VStr "God is love" ]} ].
Proof.
  refine (proj2 (list_notes_filtered example_str "u1" "John 3:16" sample_store _ _ _)).
  - discriminate.
  - vm_compute. reflexivity.
Defined.

(** C8 as stated fails: an empty reference is not absent, yet it is not
    used as a filter, and notes for other references are returned. *)
Lemma list_notes_counterexample :
  ¬ (∀ py_str u r st outs,
       (list_notes py_str u (Some r) st).1 = Ok outs →
       Forall (λ out, has_user u out ∧ has_reference r out) outs).
Proof.
  intros Hclaim.
  specialize (Hclaim example_str "u1" "" sample_store _ eq_refl).
  apply Forall_cons in Hclaim as [[_ Href] _].
  vm_compute in Href. discriminate.
Qed.

(** C10.  With an empty reference the notes endpoint drops the reference
    filter: it answers as it does without a reference, with all notes of the
    user, whatever their reference. *)
Theorem list_notes_empty_reference (py_str : value → string) (u : string) (st : db) :
  list_notes py_str u (Some "") st = list_notes py_str u None st
  ∧ list_notes py_str u (Some "") st
    = (if reachable st
       then Ok (to_json py_str <$> filter (has_user u) (collection st "note"))
       else Fail StoreUnavailable, st)
  ∧ (∀ outs doc,
       (list_notes py_str u (Some "") st).1 = Ok outs →
       doc ∈ collection st "note" → has_user u doc →
       to_json py_str doc ∈ outs).
Proof.
  assert (list_notes py_str u (Some "") st
          = (if reachable st
             then Ok (to_json py_str <$> filter (has_user u) (collection st "note"))
             else Fail StoreUnavailable, st)) as Hrun.
  { unfold list_notes. rewrite list_run. simpl.
    by rewrite (list_filter_iff (matches {["user_id" := VStr u]}) (has_user u))
      by apply matches_user. }
  split; [done|]. split; [done|].
  intros outs doc. rewrite Hrun. destruct (reachable st); [|done]. simpl.
  intros [= <-] Hin Hu. apply list_elem_of_fmap. exists doc. split; [done|].
  by apply list_elem_of_filter.
Qed.

Lemma list_notes_empty_reference_witness :
  to_json example_str
    {[ "_id" := VObjectId 0; "user_id" := VStr "u1";
       "reference" := VStr "John 3:16"; "translation" := VStr "ESV";
       "content" := VStr "God is love" ]}
  ∈ [ {[ "id" := VStr "0"; "user_id" := VStr "u1";
         "reference" := VStr "John 3:16"; "translation" := VStr "ESV";
         "content" := VStr "God is love" ]} ].
Proof.
  refine (proj2 (proj2 (list_notes_empty_reference example_str "u1" sample_store))
            _ _ _ _ _).
  - vm_compute. reflexivity.
  - apply list_elem_of_here.
  - reflexivity.
Defined.

(** C9.  A search leaves the store as it was and its result depends on
    the payload alone: repeating it, in any state of the store, gives the
    same list. *)
Theorem search_idempotent (p : SearchQuery) (st st' : db) :
  (search_handler p st).2 = st
  ∧ (search_handler p (search_handler p st).2).1 = (search_handler p st).1
  ∧ (search_handler p st').1 = (search_handler p st).1.
Proof. done. Qed.

Section Validation.
Implicit Types (sch : list field) (body : gmap string value) (f : field).

Lemma forallb_Forall {A} (g : A → bool) (P : A → Prop) (l : list A) :
  (∀ x, g x = true ↔ P x) → forallb g l = true ↔ Forall P l.
Proof.
  intros Hg. induction l as [|x l IH]; simpl; [done|].
  by rewrite andb_true_iff, Forall_cons, Hg, IH.
Qed.

Lemma check_type_accepts t v : check_type t v = true ↔ accepts t v.
Proof.
  revert v. induction t as [|t IH|t IH]; intros v; simpl.
  - destruct v; split; try done; try (by intros [? [=]]). by eexists.
  - destruct v; rewrite ?IH; split; try tauto; try (by left);
      by intros [[=]|?].
  - destruct v as [| | | |l| |]; try (split; [done|by intros (? & [=] & _)]).
    rewrite (forallb_Forall _ (accepts t)) by apply IH. split.
    + intros Hall. by exists l.
    + by intros (l' & [= <-] & Hall).
Qed.

Lemma field_error_None body f : field_error body f = None ↔ field_ok body f.
Proof.
  unfold field_error, field_ok. destruct (body !! fname f) as [v|].
  - rewrite <-check_type_accepts. by destruct (check_type (fty f) v).
  - destruct (fdefault f); split; done.
Qed.

Lemma omap_nil_iff {A B} (g : A → option B) (l : list A) :
  omap g l = [] ↔ Forall (λ x, g x = None) l.
Proof.
  induction l as [|x l IH]; simpl; [done|].
  rewrite Forall_cons. destruct (g x); [|by rewrite IH; tauto].
  split; [done|]. by intros [[=] _].
Qed.

Lemma construct_Valid sch body :
  well_formed sch body →
  construct sch body = Valid (foldr (set_field body) ∅ sch).
Proof.
  intros Hwf. unfold construct.
  assert (omap (field_error body) sch = []) as ->; [|done].
  apply omap_nil_iff. eapply Forall_impl; [exact Hwf|].
  intros f. by rewrite field_error_None.
Qed.

Lemma construct_Invalid sch body :
  ¬ well_formed sch body → ∃ errs, construct sch body = Invalid errs.
Proof.
  intros Hwf. unfold construct.
  destruct (omap (field_error body) sch) as [|e errs] eqn:Herr; [|by eexists].
  destruct Hwf. apply omap_nil_iff in Herr.
  eapply Forall_impl; [exact Herr|]. intros f. by rewrite field_error_None.
Qed.

Lemma construct_Valid_iff sch body :
  (∃ model, construct sch body = Valid model) ↔ well_formed sch body.
Proof.
  split.
  - intros [model Hc]. unfold construct in Hc.
    destruct (omap (field_error body) sch) eqn:Herr; [|done].
    apply omap_nil_iff in Herr. eapply Forall_impl; [exact Herr|].
    intros f. by rewrite field_error_None.
  - intros Hwf. eexists. by apply construct_Valid.
Qed.

(** The fields of a constructed model. *)
Lemma lookup_model sch body f :
  NoDup (fname <$> sch) → f ∈ sch →
  foldr (set_field body) ∅ sch !! fname f = field_value body f.
Proof.
  induction sch as [|g sch IH]; intros Hnd Hin; [by apply elem_of_nil in Hin|].
  rewrite fmap_cons in Hnd. apply NoDup_cons in Hnd as [Hg Hnd].
  simpl. apply elem_of_cons in Hin as [->|Hin].
  - unfold set_field at 1. destruct (field_value body g) as [v|] eqn:Hv.
    + by rewrite lookup_insert_eq.
    + clear IH Hnd. induction sch as [|h sch IH]; simpl; [done|].
      apply not_elem_of_cons in Hg as [Hgh Hg].
      unfold set_field at 1. destruct (field_value body h).
      * rewrite lookup_insert_ne by done. by apply IH.
      * by apply IH.
  - assert (fname g ≠ fname f) as Hne.
    { intros Heq. apply Hg. rewrite Heq. apply list_elem_of_fmap. by exists f. }
    unfold set_field at 1. destruct (field_value body g).
    + rewrite lookup_insert_ne by done. by apply IH.
    + by apply IH.
Qed.

(** A model built from a well-formed body is itself a well-formed body
    for the same schema: building the collection record from the dumped
    request model cannot fail. *)
Lemma well_formed_dump sch body :
  NoDup (fname <$> sch) → sound_defaults sch → well_formed sch body →
  well_formed sch (model_dump (foldr (set_field body) ∅ sch)).
Proof.
  intros Hnd Hdef Hwf. unfold well_formed, sound_defaults, model_dump in *.
  apply Forall_forall. intros f Hin. unfold field_ok.
  rewrite lookup_model by done.
  rewrite Forall_forall in Hwf. specialize (Hwf f Hin).
  rewrite Forall_forall in Hdef. specialize (Hdef f Hin).
  unfold field_ok in Hwf. unfold field_value.
  destruct (body !! fname f) as [v|]; [done|].
  destruct (fdefault f) as [d|]; [by apply Hdef|]. by destruct Hwf.
Qed.

Lemma field_by_name sch f g :
  NoDup (fname <$> sch) → f ∈ sch → g ∈ sch → fname f = fname g → f = g.
Proof.
  induction sch as [|h sch IH]; intros Hnd Hf Hg Heq;
    [by apply elem_of_nil in Hf|].
  rewrite fmap_cons in Hnd. apply NoDup_cons in Hnd as [Hh Hnd].
  apply elem_of_cons in Hf as [->|Hf]; apply elem_of_cons in Hg as [->|Hg].
  - done.
  - destruct Hh. rewrite Heq. apply list_elem_of_fmap. by exists g.
  - destruct Hh. rewrite <-Heq. apply list_elem_of_fmap. by exists f.
  - by apply IH.
Qed.

(** An empty string is as good as any other for a required string field. *)
Lemma well_formed_empty sch body name :
  NoDup (fname <$> sch) → required_str sch name → well_formed sch body →
  well_formed sch (<[name := VStr ""]> body).
Proof.
  intros Hnd Hreq Hwf. unfold well_formed in *.
  apply Forall_forall. intros f Hin.
  rewrite Forall_forall in Hwf. specialize (Hwf f Hin). unfold field_ok in *.
  destruct (decide (fname f = name)) as [<-|Hne]; [|by rewrite lookup_insert_ne].
  rewrite lookup_insert_eq.
  assert (f = required (fname f) TStr) as ->; [|by exists ""].
  by apply (field_by_name sch).
Qed.

End Validation.

Section Create.
Variable py_str : value → string.
Implicit Types (sch : list field) (body : gmap string value) (st : db).

Lemma create_steps_rejected sch name body st :
  ¬ well_formed sch body →
  ∃ errs, create_steps py_str sch name body st
          = (Fail (RequestValidationError errs), st).
Proof.
  intros [errs Herr]%construct_Invalid. exists errs.
  unfold create_steps, bind, parse_body. by rewrite Herr.
Qed.

Lemma create_steps_accepted sch name body st :
  NoDup (fname <$> sch) → sound_defaults sch → well_formed sch body →
  create_steps py_str sch name body st
  = (let* doc_id :=
       create_document py_str name
         (foldr (set_field (model_dump (foldr (set_field body) ∅ sch))) ∅ sch) in
     ret {["id" := VStr doc_id]}) st.
Proof.
  intros Hnd Hdef Hwf. unfold create_steps, bind at 1 2, parse_body, instantiate.
  rewrite (construct_Valid sch body Hwf). unfold ret at 1.
  rewrite (construct_Valid sch _ (well_formed_dump sch body Hnd Hdef Hwf)).
  done.
Qed.

Lemma lookup_record sch body f :
  NoDup (fname <$> sch) → f ∈ sch → is_Some (body !! fname f) →
  foldr (set_field (model_dump (foldr (set_field body) ∅ sch))) ∅ sch !! fname f
  = body !! fname f.
Proof.
  intros Hnd Hin [v Hv]. unfold model_dump.
  rewrite lookup_model by done. unfold field_value at 1.
  rewrite lookup_model by done. unfold field_value. by rewrite Hv.
Qed.

Lemma create_steps_spec sch name body st :
  NoDup (fname <$> sch) → sound_defaults sch →
  (rejected (create_steps py_str sch name body st).1 ↔ ¬ well_formed sch body)
  ∧ (well_formed sch body → reachable st = true →
     ∃ doc,
       (create_steps py_str sch name body st).1
       = Ok {["id" := VStr (py_str (VObjectId (next_id st)))]}
       ∧ collection (create_steps py_str sch name body st).2 name
         = collection st name ++ [doc]
       ∧ doc !! "_id" = Some (VObjectId (next_id st))
       ∧ ∀ field, field ≠ "_id" → required_str sch field →
           doc !! field = body !! field).
Proof.
  intros Hnd Hdef. split.
  - split.
    + intros [errs Herr] Hwf.
      rewrite create_steps_accepted in Herr by done.
      unfold bind, create_document, ret in Herr.
      by destruct (reachable st).
    + intros [errs Herr]%(create_steps_rejected sch name body st).
      exists errs. by rewrite Herr.
  - intros Hwf Hup. rewrite create_steps_accepted by done.
    unfold bind, create_document, ret. rewrite Hup. simpl.
    eexists. split; [done|]. split; [|split].
    + unfold collection at 1. simpl. by rewrite lookup_insert_eq.
    + apply lookup_insert_eq.
    + intros field Hfield Hreq. rewrite lookup_insert_ne by done.
      unfold model_dump at 1.
      apply (lookup_record sch body (required field TStr)); [done|done|].
      unfold well_formed in Hwf. rewrite Forall_forall in Hwf.
      specialize (Hwf _ Hreq). unfold field_ok in Hwf. simpl in *.
      by destruct (body !! field).
Qed.

End Create.

Ltac solve_defaults :=
  unfold sound_defaults;
  repeat (apply Forall_cons; split;
          [intros d Hd; simplify_eq/=;
           first [by eexists | by left | by (exists []; split; [|apply Forall_nil_2])]|]);
  apply Forall_nil_2.

(** C3, amended.  A create request for a user-owned record is rejected
    with 422 exactly when a required field is missing or a supplied field
    has the wrong type.  An empty string is accepted for every required
    string field, and an accepted request is stored with its required
    fields as given, empty or not. *)
Theorem create_validation (py_str : value → string) (sch : list field)
    (name : string) (create : gmap string value → handler (gmap string value))
    (body : gmap string value) (st : db) :
  (sch, name, create) ∈ create_routes py_str →
  (rejected (create body st).1 ↔ ¬ well_formed sch body)
  ∧ (∀ field, required_str sch field → well_formed sch body →
       well_formed sch (<[field := VStr ""]> body))
  ∧ (well_formed sch body → reachable st = true →
     ∃ doc,
       (create body st).1 = Ok {["id" := VStr (py_str (VObjectId (next_id st)))]}
       ∧ collection (create body st).2 name = collection st name ++ [doc]
       ∧ doc !! "_id" = Some (VObjectId (next_id st))
       ∧ ∀ field, field ≠ "_id" → required_str sch field →
           doc !! field = body !! field).
Proof.
  intros Hroute.
  assert (NoDup (fname <$> sch) ∧ sound_defaults sch
          ∧ create = create_steps py_str sch name) as (Hnd & Hdef & ->).
  { unfold create_routes in Hroute.
    repeat (apply elem_of_cons in Hroute as [Heq|Hroute];
            [injection Heq as -> -> ->;
             split; [compute_done|split; [solve_defaults|reflexivity]]|]).
    by apply elem_of_nil in Hroute. }
  destruct (create_steps_spec py_str sch name body st Hnd Hdef) as [Hrej Hacc].
  split; [done|]. split; [|done].
  intros field Hreq Hwf. by apply well_formed_empty.
Qed.

Lemma highlight_empty_reference_well_formed :
  well_formed CreateHighlight highlight_empty_reference.
Proof.
  apply construct_Valid_iff. eexists. vm_compute. reflexivity.
Defined.

Lemma create_validation_witness :
  ¬ rejected (create_highlight example_str highlight_empty_reference empty_store).1.
Proof.
  destruct (create_validation example_str CreateHighlight "highlight"
              (create_highlight example_str) highlight_empty_reference empty_store)
    as [Hrej _]; [apply list_elem_of_here|].
  intros Hr. apply Hrej in Hr. apply Hr.
  exact highlight_empty_reference_well_formed.
Defined.

(** C3 as stated fails: a Highlight with an empty reference is accepted,
    and a record with an empty user_id is stored. *)
Lemma create_highlight_counterexample :
  ¬ rejected (create_highlight example_str highlight_empty_reference empty_store).1
  ∧ ∃ doc,
      doc ∈ collection
              (create_highlight example_str highlight_empty_user empty_store).2
              "highlight"
      ∧ doc !! "user_id" = Some (VStr "").
Proof.
  split.
  - intros [errs Herr]. vm_compute in Herr. discriminate.
  - eexists. split; [vm_compute; apply list_elem_of_here|]. reflexivity.
Qed.

(** * Further properties *)

Section SearchMore.

Lemma search_verses_all_hits (p : SearchQuery) :
  search_verses p
  = Ok (PyStr.slice_to (limit p) (all_hits (q p) (translation p))).
Proof. unfold search_verses, all_hits. by rewrite scan_hits. Qed.

Lemma slice_to_subseteq {A} (n : Z) (l : list A) : PyStr.slice_to n l ⊆ l.
Proof. unfold PyStr.slice_to. destruct (0 <=? n)%Z; apply subseteq_take. Qed.

Lemma elem_of_all_hits q0 tr h :
  h ∈ all_hits q0 tr ↔
  ∃ t r txt, stored t r txt ∧ in_scope (effective tr) t
             ∧ Substring (PyStr.lower q0) (PyStr.lower txt)
             ∧ h = hit_of (t, r, txt).
Proof.
  unfold all_hits. rewrite list_elem_of_fmap. split.
  - intros ([[t r] txt] & -> & [[Hs Hq] Hin]%list_elem_of_filter).
    by exists t, r, txt.
  - intros (t & r & txt & Hin & Hs & Hq & ->). exists (t, r, txt).
    split; [done|]. by apply list_elem_of_filter.
Qed.

Lemma substring_all n s : String.length s ≤ n → substring 0 n s = s.
Proof.
  revert n. induction s as [|c s IH]; intros [|n] Hn; simpl in *; try done; [lia|].
  rewrite IH; [done|lia].
Qed.

Lemma contains_empty s : PyStr.contains "" s = true.
Proof. by destruct s. Qed.

Lemma lower_char_idemp c : PyStr.lower_char (PyStr.lower_char c) = PyStr.lower_char c.
Proof. by destruct c as [[] [] [] [] [] [] [] []]. Qed.

Lemma lower_idemp s : PyStr.lower (PyStr.lower s) = PyStr.lower s.
Proof. induction s as [|c s IH]; simpl; [done|]. by rewrite lower_char_idemp, IH. Qed.

Lemma get_verse_Ok t r txt :
  stored t r txt →
  get_verse r t = Ok {| vb_reference := r; vb_translation := t; vb_text := txt |}.
Proof.
  intros Hst. unfold get_verse. pose proof (stored_truthy _ _ _ Hst) as Htr.
  apply lookup_stored in Hst. rewrite Hst. simpl. by rewrite Htr.
Qed.

Lemma get_verse_Ok_inv t r body :
  get_verse r t = Ok body →
  stored t r (vb_text body) ∧ vb_reference body = r ∧ vb_translation body = t.
Proof.
  unfold get_verse.
  destruct (dict_get (verses_of t) r) as [txt|] eqn:Hget; simpl; [|done].
  destruct (PyStr.truthy txt); simpl; [|done]. intros [= <-]. simpl.
  by apply lookup_stored in Hget.
Qed.

Lemma all_pairs_by_translation :
  all_pairs = (tag "ESV" <$> verses_of "ESV") ++ (tag "NIV" <$> verses_of "NIV").
Proof. reflexivity. Qed.

Lemma all_hits_length q0 tr : length (all_hits q0 tr) ≤ length all_pairs.
Proof. unfold all_hits. rewrite length_fmap. apply length_filter. Qed.

Lemma all_hits_translation q0 t :
  PyStr.truthy t = true →
  all_hits q0 (Some t) = hits (PyStr.lower q0) (tag t <$> verses_of t).
Proof.
  intros Ht. unfold all_hits, hits, effective. rewrite Ht. f_equal.
  unfold verses_of, all_pairs.
  rewrite <-(filter_pairs_key SAMPLE_TEXTS t SAMPLE_TEXTS_keys).
  rewrite list_filter_filter. apply list_filter_iff.
  intros e. unfold in_scope. split.
  - intros [[[=]|[= ->]] ?]. done.
  - intros [? <-]. split; [by right|done].
Qed.

Lemma all_hits_None q0 : all_hits q0 None = hits (PyStr.lower q0) all_pairs.
Proof.
  unfold all_hits, hits. f_equal. apply list_filter_iff.
  intros e. unfold in_scope. simpl. split; [by intros [_ ?]|]. intros ?. split; [by left|done].
Qed.

End SearchMore.

(** X1.  A negative limit does not bound the answer: the search returns
    all matching entries except the last [-limit] of them. *)
Theorem search_negative_limit (p : SearchQuery) :
  (limit p < 0)%Z →
  search_verses p
  = Ok (take (length (all_hits (q p) (translation p)) - Z.to_nat (- limit p))
          (all_hits (q p) (translation p))).
Proof.
  intros Hneg. rewrite search_verses_all_hits. unfold PyStr.slice_to.
  by rewrite (proj2 (Z.leb_gt 0 (limit p))).
Qed.

Lemma search_negative_limit_witness :
  search_verses {| q := "shepherd"; translation := None; language := None; limit := -1 |}
  = Ok [ {| hit_reference := "Psalm 23:1"; hit_translation := "ESV";
            hit_snippet := "The Lord is my shepherd; I shall not want." |} ].
Proof.
  rewrite (search_negative_limit
             {| q := "shepherd"; translation := None; language := None; limit := -1 |});
    [reflexivity | simpl; lia].
Defined.

(** X2.  The empty query matches every verse: with a non-negative limit
    the search returns the first [limit] entries of the scanned
    translations, whatever their text. *)
Theorem search_empty_query (p : SearchQuery) :
  q p = "" → (0 ≤ limit p)%Z →
  search_verses p
  = Ok (take (Z.to_nat (limit p))
          (hit_of <$> filter (λ e, in_scope (effective (translation p)) e.1.1)
                        all_pairs)).
Proof.
  intros Hq Hlimit. rewrite search_verses_all_hits, slice_to_nonneg by done.
  unfold all_hits. rewrite Hq. do 3 f_equal. apply list_filter_iff.
  intros e. split; [by intros [? _]|]. intros ?. split; [done|].
  apply contains_Substring, contains_empty.
Qed.

Lemma search_empty_query_witness :
  search_verses {| q := ""; translation := Some "ESV"; language := None; limit := 5 |}
  = Ok [ {| hit_reference := "John 3:16"; hit_translation := "ESV";
            hit_snippet := "For God so loved the world, that he gave his only Son, that whoever believes in him should not perish but have eternal life." |};
         {| hit_reference := "Psalm 23:1"; hit_translation := "ESV";
            hit_snippet := "The Lord is my shepherd; I shall not want." |} ].
Proof.
  rewrite (search_empty_query
             {| q := ""; translation := Some "ESV"; language := None; limit := 5 |});
    [reflexivity | reflexivity | simpl; lia].
Defined.

(** X3.  A search restricted to a translation that is not offered answers
    200 with an empty list, whatever the query and the limit. *)
Theorem search_unknown_translation (p : SearchQuery) (t : string) :
  translation p = Some t → t ≠ "" → t ∉ get_translations →
  search_verses p = Ok [].
Proof.
  intros Htr Ht Hunknown. rewrite search_verses_all_hits, Htr.
  rewrite all_hits_translation by by destruct t.
  assert (verses_of t = []) as ->; [|apply f_equal, slice_to_nil].
  unfold verses_of.
  assert (dict_get SAMPLE_TEXTS t = None) as ->; [|done].
  by apply dict_get_None.
Qed.

Lemma search_unknown_translation_witness :
  search_verses {| q := "god"; translation := Some "KJV"; language := None; limit := 20 |}
  = Ok [].
Proof.
  apply (search_unknown_translation
           {| q := "god"; translation := Some "KJV"; language := None; limit := 20 |}
           "KJV"); [reflexivity | discriminate |].
  unfold get_translations. intros Hin.
  repeat (apply elem_of_cons in Hin as [[=]|Hin]). by apply elem_of_nil in Hin.
Defined.

(** X4.  The search is case-insensitive in the query: searching for the
    lowered query gives the same answer. *)
Theorem search_query_case (p : SearchQuery) :
  search_verses
    {| q := PyStr.lower (q p); translation := translation p;
       language := language p; limit := limit p |}
  = search_verses p.
Proof. rewrite !search_verses_all_hits. unfold all_hits. simpl. by rewrite lower_idemp. Qed.

(** X5.  Every entry a search returns can be fetched: the verse lookup for
    its reference and translation succeeds, the snippet is the whole stored
    text, and that text contains the query up to case. *)
Theorem search_hit_fetchable (p : SearchQuery) (l : list search_hit) (h : search_hit) :
  search_verses p = Ok l → h ∈ l →
  get_verse (hit_reference h) (hit_translation h)
  = Ok {| vb_reference := hit_reference h; vb_translation := hit_translation h;
          vb_text := hit_snippet h |}
  ∧ Substring (PyStr.lower (q p)) (PyStr.lower (hit_snippet h)).
Proof.
  rewrite search_verses_all_hits. intros [= <-] Hin.
  apply slice_to_subseteq, elem_of_all_hits in Hin
    as (t & r & txt & Hst & _ & Hq & ->).
  unfold hit_of. simpl. rewrite substring_all by by eapply stored_short.
  split; [by apply get_verse_Ok|done].
Qed.

Lemma search_hit_fetchable_witness :
  get_verse "Psalm 23:1" "NIV"
  = Ok {| vb_reference := "Psalm 23:1"; vb_translation := "NIV";
          vb_text := "The Lord is my shepherd, I lack nothing." |}
  ∧ Substring "lack" "the lord is my shepherd, i lack nothing.".
Proof.
  apply (search_hit_fetchable
           {| q := "LACK"; translation := None; language := None; limit := 20 |}
           [ {| hit_reference := "Psalm 23:1"; hit_translation := "NIV";
                hit_snippet := "The Lord is my shepherd, I lack nothing." |} ]
           {| hit_reference := "Psalm 23:1"; hit_translation := "NIV";
              hit_snippet := "The Lord is my shepherd, I lack nothing." |}).
  - reflexivity.
  - apply list_elem_of_here.
Defined.

(** X6.  Searching all translations is searching each offered translation
    in turn: when the limit does not cut, the answer without a translation
    is the concatenation of the answers for the offered translations, in
    the order in which they are offered. *)
Theorem search_all_translations (q0 : string) (lang : option string) (n : Z) :
  (Z.of_nat (length all_pairs) ≤ n)%Z →
  answered (search_verses {| q := q0; translation := None; language := lang; limit := n |})
  = concat
      ((λ t, answered (search_verses {| q := q0; translation := Some t;
                                        language := lang; limit := n |}))
         <$> get_translations).
Proof.
  intros Hn.
  assert (∀ tr, answered (search_verses {| q := q0; translation := tr;
                                           language := lang; limit := n |})
                = all_hits q0 tr) as Hans.
  { intros tr. rewrite search_verses_all_hits. simpl.
    rewrite slice_to_nonneg by lia. apply take_ge.
    pose proof (all_hits_length q0 tr). lia. }
  unfold get_translations. rewrite !fmap_cons, fmap_nil. cbn [concat].
  rewrite !Hans, app_nil_r.
  rewrite all_hits_None, !all_hits_translation by done.
  by rewrite all_pairs_by_translation, hits_app.
Qed.

Lemma search_all_translations_witness :
  answered (search_verses {| q := "lord"; translation := None; language := None;
                             limit := 4 |})
  = concat
      ((λ t, answered (search_verses {| q := "lord"; translation := Some t;
                                        language := None; limit := 4 |}))
         <$> get_translations).
Proof. apply (search_all_translations "lord" None 4). simpl. lia. Defined.

Section ParallelMore.

Lemma get_parallel_items r translations :
  items_of (get_parallel r translations) = parallel_spec r (requested translations).
Proof.
  unfold get_parallel. rewrite foldl_parallel_step. simpl.
  fold (requested translations).
  by destruct (parallel_spec r (requested translations)).
Qed.

Lemma elem_of_parallel_spec r req t txt :
  mk_item t txt ∈ parallel_spec r req ↔ t ∈ req ∧ stored t r txt.
Proof.
  unfold parallel_spec. rewrite list_elem_of_omap. split.
  - intros (t' & Hin & Hitem).
    destruct (text_of t' r) as [txt'|] eqn:Ht; simplify_eq/=.
    split; [done|]. by apply text_of_stored.
  - intros [Hin Hst]. exists t. split; [done|].
    apply text_of_stored in Hst. by rewrite Hst.
Qed.

Lemma split_nonempty sep s : PyStr.split sep s ≠ [].
Proof.
  destruct s as [|c s]; simpl; [done|]. case_decide; [done|].
  by destruct (PyStr.split sep s).
Qed.

Lemma split_app sep a b :
  PyStr.split sep (a +:+ String sep b) = PyStr.split sep a ++ PyStr.split sep b.
Proof.
  induction a as [|c a IH].
  - change ("" +:+ String sep b) with (String sep b). simpl.
    by rewrite decide_True.
  - change (String c a +:+ String sep b) with (String c (a +:+ String sep b)).
    simpl. case_decide; [by rewrite IH|]. rewrite IH.
    pose proof (split_nonempty sep a).
    by destruct (PyStr.split sep a).
Qed.

End ParallelMore.

(** X7.  A parallel lookup and the single lookups agree: a translation
    appears among the items with a text exactly when it is requested and
    the verse lookup for it succeeds with that text. *)
Theorem parallel_agrees_with_verse (r translations t txt : string) :
  mk_item t txt ∈ items_of (get_parallel r translations)
  ↔ t ∈ requested translations
    ∧ get_verse r t
      = Ok {| vb_reference := r; vb_translation := t; vb_text := txt |}.
Proof.
  rewrite get_parallel_items, elem_of_parallel_spec.
  apply and_iff_compat_l. split; [apply get_verse_Ok|].
  by intros [Hst _]%get_verse_Ok_inv.
Qed.

Lemma parallel_agrees_with_verse_witness :
  mk_item "NIV" "The Lord is my shepherd, I lack nothing."
  ∈ items_of (get_parallel "Psalm 23:1" "KJV, NIV").
Proof.
  apply (parallel_agrees_with_verse "Psalm 23:1" "KJV, NIV" "NIV").
  split; [|reflexivity].
  apply list_elem_of_further, list_elem_of_here.
Defined.

(** X8.  Parallel lookups compose along the comma: the items for two lists
    joined by a comma are the items for the first list followed by the
    items for the second. *)
Theorem parallel_concat (r a b : string) :
  items_of (get_parallel r (a +:+ "," +:+ b))
  = items_of (get_parallel r a) ++ items_of (get_parallel r b).
Proof.
  rewrite !get_parallel_items. unfold requested, parallel_spec.
  change ("," +:+ b) with (String "," b).
  by rewrite split_app, fmap_app, omap_app.
Qed.

Section SerializationMore.
Variable py_str : value → string.
Implicit Types (doc out : gmap string value) (st : db).

Lemma render_idemp v : render (render v) = render v.
Proof. by destruct v. Qed.

Lemma to_json_without_id doc :
  doc !! "_id" = None → to_json py_str doc = render <$> doc.
Proof.
  intros Hid. unfold to_json. case_decide as Hempty.
  - subst doc. by rewrite fmap_empty.
  - by rewrite Hid.
Qed.

Lemma render_to_json doc : render <$> to_json py_str doc = to_json py_str doc.
Proof.
  unfold to_json. case_decide as Hempty.
  - subst doc. by rewrite fmap_empty.
  - rewrite <-map_fmap_compose. apply map_fmap_ext. intros k v _. apply render_idemp.
Qed.

End SerializationMore.

(** X9.  Serialization is idempotent: serializing a document that is
    already serialized changes nothing. *)
Theorem to_json_idempotent (py_str : value → string) (doc : gmap string value) :
  to_json py_str (to_json py_str doc) = to_json py_str doc.
Proof.
  rewrite to_json_without_id by apply to_json_no_raw_id. apply render_to_json.
Qed.

Section CreateMore.
Variable py_str : value → string.
Implicit Types (sch : list field) (body doc : gmap string value) (st : db).

Lemma create_routes_steps sch name create :
  (sch, name, create) ∈ create_routes py_str →
  NoDup (fname <$> sch) ∧ sound_defaults sch
  ∧ create = create_steps py_str sch name
  ∧ required_str sch "user_id"
  ∧ ("_id" ∉ (fname <$> sch)) ∧ ("id" ∉ (fname <$> sch)).
Proof.
  intros Hroute. unfold create_routes in Hroute.
  repeat (apply elem_of_cons in Hroute as [Heq|Hroute];
          [injection Heq as -> -> ->;
           split; [compute_done|split; [solve_defaults|]];
           split; [reflexivity|];
           split; [apply list_elem_of_here|split; compute_done]|]).
  by apply elem_of_nil in Hroute.
Qed.

Lemma list_routes_run name lst u st :
  (name, lst) ∈ list_routes py_str →
  lst u st
  = (if reachable st
     then Ok (to_json py_str <$> filter (has_user u) (collection st name))
     else Fail StoreUnavailable, st).
Proof.
  intros Hroute. unfold list_routes in Hroute.
  repeat (apply elem_of_cons in Hroute as [Heq|Hroute];
          [injection Heq as -> ->;
           unfold list_highlights, list_bookmarks, list_notes, list_playlists,
             notes_query;
           rewrite list_run;
           by rewrite (list_filter_iff (matches {["user_id" := VStr u]}) (has_user u))
             by apply matches_user|]).
  by apply elem_of_nil in Hroute.
Qed.

Lemma create_steps_run sch name body st :
  NoDup (fname <$> sch) → sound_defaults sch → well_formed sch body →
  create_steps py_str sch name body st
  = if reachable st
    then (Ok {["id" := VStr (py_str (VObjectId (next_id st)))]},
          {| reachable := true; next_id := S (next_id st);
             collections :=
               <[name := (collection st name
                          ++ [<["_id" := VObjectId (next_id st)]> (record_of sch body)])]>
                 (collections st) |})
    else (Fail StoreUnavailable, st).
Proof.
  intros Hnd Hdef Hwf. rewrite create_steps_accepted by done.
  unfold bind, create_document, ret. by destruct (reachable st).
Qed.

Lemma create_steps_invalid sch name body st errs :
  construct sch body = Invalid errs →
  create_steps py_str sch name body st = (Fail (RequestValidationError errs), st).
Proof. intros Herr. unfold create_steps, bind, parse_body. by rewrite Herr. Qed.

Lemma construct_cases sch body :
  well_formed sch body ∨ ∃ errs, construct sch body = Invalid errs.
Proof.
  destruct (construct sch body) as [model|errs] eqn:Hc; [left|right; by exists errs].
  apply construct_Valid_iff. by exists model.
Qed.

Lemma lookup_model_None sch body k :
  k ∉ (fname <$> sch) → foldr (set_field body) ∅ sch !! k = None.
Proof.
  induction sch as [|f sch IH]; intros Hk; simpl; [apply lookup_empty|].
  rewrite fmap_cons in Hk. apply not_elem_of_cons in Hk as [Hkf Hk].
  unfold set_field at 1. destruct (field_value body f).
  - rewrite lookup_insert_ne by done. by apply IH.
  - by apply IH.
Qed.

Lemma field_value_well_formed sch body f :
  well_formed sch body → f ∈ sch → is_Some (field_value body f).
Proof.
  intros Hwf Hin. unfold well_formed in Hwf. rewrite Forall_forall in Hwf.
  specialize (Hwf f Hin). unfold field_ok in Hwf. unfold field_value.
  by destruct (body !! fname f).
Qed.

Lemma lookup_record_of sch body f :
  NoDup (fname <$> sch) → well_formed sch body → f ∈ sch →
  record_of sch body !! fname f = field_value body f.
Proof.
  intros Hnd Hwf Hin. unfold record_of, model_dump.
  rewrite lookup_model by done. unfold field_value at 1.
  rewrite lookup_model by done.
  by destruct (field_value_well_formed sch body f Hwf Hin) as [v ->].
Qed.

Lemma record_of_user sch body u :
  NoDup (fname <$> sch) → well_formed sch body → required_str sch "user_id" →
  has_user u (record_of sch body) ↔ body !! "user_id" = Some (VStr u).
Proof.
  intros Hnd Hwf Hreq. unfold has_user.
  pose proof (lookup_record_of sch body _ Hnd Hwf Hreq) as Hrec.
  pose proof (field_value_well_formed sch body _ Hwf Hreq) as [v Hv].
  unfold field_value in Hrec, Hv. simpl in Hrec, Hv. rewrite Hrec.
  by destruct (body !! "user_id").
Qed.

End CreateMore.

(** X10.  The collection schemas of [schemas.py] accept whatever the request
    models of [main.py] accept: no create handler fails with an unhandled
    validation error, whatever the body and the store. *)
Theorem create_never_unhandled (py_str : value → string) (sch : list field)
    (name : string) (create : gmap string value → handler (gmap string value))
    (body : gmap string value) (st : db) :
  (sch, name, create) ∈ create_routes py_str →
  (create body st).1 ≠ Fail Unhandled.
Proof.
  intros (Hnd & Hdef & -> & _)%create_routes_steps.
  destruct (construct_cases sch body) as [Hwf|[errs Herr]].
  - rewrite create_steps_run by done. by destruct (reachable st).
  - by rewrite (create_steps_invalid _ _ _ _ _ errs).
Qed.

Lemma create_never_unhandled_witness :
  (create_playlist example_str {[ "user_id" := VStr "u1"; "title" := VStr "Hope" ]}
     empty_store).1
  ≠ Fail Unhandled.
Proof.
  apply (create_never_unhandled example_str CreatePlaylist "verseplaylist").
  do 3 apply list_elem_of_further. apply list_elem_of_here.
Defined.

(** X11.  A create request that fails stores nothing: whenever a create
    handler answers with a failure, the store is left as it was. *)
Theorem create_failure_keeps_store (py_str : value → string) (sch : list field)
    (name : string) (create : gmap string value → handler (gmap string value))
    (body : gmap string value) (st : db) (e : failure) :
  (sch, name, create) ∈ create_routes py_str →
  (create body st).1 = Fail e →
  (create body st).2 = st.
Proof.
  intros (Hnd & Hdef & -> & _)%create_routes_steps.
  destruct (construct_cases sch body) as [Hwf|[errs Herr]].
  - rewrite create_steps_run by done. by destruct (reachable st).
  - by rewrite (create_steps_invalid _ _ _ _ _ errs).
Qed.

Lemma create_failure_keeps_store_witness :
  (create_note example_str {[ "user_id" := VStr "u1" ]} sample_store).2 = sample_store.
Proof.
  apply (create_failure_keeps_store example_str CreateNote "note"
           (create_note example_str) {[ "user_id" := VStr "u1" ]} sample_store
           (RequestValidationError
              [Missing "reference"; Missing "translation"; Missing "content"])).
  - do 2 apply list_elem_of_further. apply list_elem_of_here.
  - vm_compute. reflexivity.
Defined.

(** X12.  What is created can be listed: after an accepted create request
    the list endpoint of the same collection, asked for the user of the
    request, answers with what it answered before followed by the new
    record, which carries the identifier the create request returned, no raw
    identifier, and the required fields as they were sent. *)
Theorem create_then_list (py_str : value → string) (sch : list field)
    (name : string) (create : gmap string value → handler (gmap string value))
    (lst : string → handler (list (gmap string value)))
    (body : gmap string value) (st : db) (u : string) :
  (sch, name, create) ∈ create_routes py_str →
  (name, lst) ∈ list_routes py_str →
  well_formed sch body → reachable st = true →
  body !! "user_id" = Some (VStr u) →
  ∃ doc_id out,
    (create body st).1 = Ok {["id" := VStr doc_id]}
    ∧ (lst u (create body st).2).1 = Ok (answered (lst u st).1 ++ [out])
    ∧ out !! "id" = Some (VStr doc_id)
    ∧ out !! "_id" = None
    ∧ ∀ field, required_str sch field → out !! field = body !! field.
Proof.
  intros (Hnd & Hdef & -> & Huser & Hraw & Hid)%create_routes_steps Hlst Hwf Hup Hu.
  rewrite create_steps_run, Hup by done. simpl.
  rewrite !(list_routes_run py_str name lst) by done. simpl. rewrite Hup. simpl.
  unfold collection at 1. simpl. rewrite lookup_insert_eq. simpl.
  set (doc := <["_id" := VObjectId (next_id st)]> (record_of sch body)).
  assert (has_user u doc) as Hdoc.
  { unfold has_user, doc. rewrite lookup_insert_ne by done.
    by apply record_of_user. }
  exists (py_str (VObjectId (next_id st))), (to_json py_str doc).
  split; [done|]. split; [|split; [|split]].
  - by rewrite filter_app, fmap_app, filter_cons_True.
  - apply to_json_id. unfold doc. apply lookup_insert_eq.
  - apply to_json_no_raw_id.
  - intros field Hreq.
    assert (field ∈ fname <$> sch) as Hin.
    { apply list_elem_of_fmap. by exists (required field TStr). }
    assert (field ≠ "_id") by (by intros ->).
    assert (field ≠ "id") by (by intros ->).
    pose proof (lookup_record_of sch body _ Hnd Hwf Hreq) as Hrec.
    pose proof (Hwf' := Hwf). unfold well_formed in Hwf'.
    rewrite Forall_forall in Hwf'. specialize (Hwf' _ Hreq).
    unfold field_ok in Hwf'. unfold field_value in Hrec. simpl in Hwf', Hrec.
    destruct (body !! field) as [v|] eqn:Hv; [|by destruct Hwf'].
    destruct Hwf' as [s ->].
    apply to_json_str_field; [done|done|].
    unfold doc. by rewrite lookup_insert_ne.
Qed.

Lemma create_then_list_witness :
  ∃ doc_id out,
    (create_highlight example_str highlight_empty_reference empty_store).1
    = Ok {["id" := VStr doc_id]}
    ∧ (list_highlights example_str "u1"
         (create_highlight example_str highlight_empty_reference empty_store).2).1
      = Ok (answered (list_highlights example_str "u1" empty_store).1 ++ [out])
    ∧ out !! "id" = Some (VStr doc_id)
    ∧ out !! "_id" = None
    ∧ ∀ field, required_str CreateHighlight field →
        out !! field = highlight_empty_reference !! field.
Proof.
  apply (create_then_list example_str CreateHighlight "highlight"
           (create_highlight example_str) (list_highlights example_str)
           highlight_empty_reference empty_store "u1").
  - apply list_elem_of_here.
  - apply list_elem_of_here.
  - exact highlight_empty_reference_well_formed.
  - reflexivity.
  - reflexivity.
Defined.

(** X13.  A create request touches one user's view of one collection: the
    list endpoints of the other collections, and the same list endpoint
    asked for another user, answer after the request as they did before. *)
Theorem create_isolated (py_str : value → string) (sch : list field)
    (name name' : string) (create : gmap string value → handler (gmap string value))
    (lst : string → handler (list (gmap string value)))
    (body : gmap string value) (st : db) (u' : string) :
  (sch, name, create) ∈ create_routes py_str →
  (name', lst) ∈ list_routes py_str →
  name' ≠ name ∨ body !! "user_id" ≠ Some (VStr u') →
  (lst u' (create body st).2).1 = (lst u' st).1.
Proof.
  intros (Hnd & Hdef & -> & Huser & Hraw & Hid)%create_routes_steps Hlst Hother.
  destruct (construct_cases sch body) as [Hwf|[errs Herr]];
    [|by rewrite (create_steps_invalid _ _ _ _ _ errs)].
  rewrite create_steps_run by done.
  destruct (reachable st) eqn:Hup; [|done]. simpl.
  rewrite !(list_routes_run py_str name' lst) by done. simpl. rewrite Hup. simpl.
  do 2 f_equal. unfold collection at 1. simpl.
  destruct (decide (name' = name)) as [->|Hne].
  - destruct Hother as [?|Hu]; [done|].
    rewrite lookup_insert_eq. simpl. rewrite filter_app, filter_cons_False.
    + by rewrite app_nil_r.
    + unfold has_user. rewrite lookup_insert_ne by done.
      by rewrite (record_of_user sch body u').
  - by rewrite lookup_insert_ne.
Qed.

Lemma create_isolated_witness :
  (list_notes example_str "u1" None
     (create_highlight example_str highlight_empty_reference sample_store).2).1
  = (list_notes example_str "u1" None sample_store).1.
Proof.
  apply (create_isolated example_str CreateHighlight "highlight" "note"
           (create_highlight example_str) (λ u, list_notes example_str u None)
           highlight_empty_reference sample_store "u1").
  - apply list_elem_of_here.
  - do 2 apply list_elem_of_further. apply list_elem_of_here.
  - left. discriminate.
Defined.

(** X14.  The record a create handler hands to the store for an accepted
    body has exactly the fields its model declares: keys of the request body
    that the model does not declare are dropped, a supplied field is passed
    on as sent, and a declared field the body omits takes its declared
    default. *)
Theorem create_record_declared_fields (py_str : value → string) (sch : list field)
    (name : string) (create : gmap string value → handler (gmap string value))
    (body : gmap string value) :
  (sch, name, create) ∈ create_routes py_str →
  well_formed sch body →
  ∃ record,
    (∀ st, create body st
           = (let* doc_id := create_document py_str name record in
              ret {["id" := VStr doc_id]}) st)
    ∧ (∀ k, is_Some (record !! k) ↔ k ∈ fname <$> sch)
    ∧ (∀ f v, f ∈ sch → body !! fname f = Some v → record !! fname f = Some v)
    ∧ (∀ f d, f ∈ sch → body !! fname f = None → fdefault f = Some d →
         record !! fname f = Some d).
Proof.
  intros (Hnd & Hdef & -> & Huser & Hraw & Hid)%create_routes_steps Hwf.
  exists (record_of sch body). split; [|split; [|split]].
  - intros st. by apply create_steps_accepted.
  - intros k. split.
    + intros Hsome.
      destruct (decide (k ∈ fname <$> sch)) as [|Hnot]; [done|].
      unfold record_of in Hsome.
      rewrite lookup_model_None in Hsome by done. by destruct Hsome.
    + intros (f & -> & Hin)%list_elem_of_fmap.
      rewrite lookup_record_of by done.
      by eapply field_value_well_formed.
  - intros f v Hin Hbody.
    rewrite lookup_record_of by done. unfold field_value. by rewrite Hbody.
  - intros f d Hin Hbody Hd.
    rewrite lookup_record_of by done. unfold field_value. by rewrite Hbody.
Qed.

Lemma create_record_declared_fields_witness :
  ∃ record,
    (∀ st, create_highlight example_str
             (<["admin" := VBool true]> highlight_empty_reference) st
           = (let* doc_id := create_document example_str "highlight" record in
              ret {["id" := VStr doc_id]}) st)
    ∧ (∀ k, is_Some (record !! k) ↔ k ∈ fname <$> CreateHighlight)
    ∧ (∀ f v, f ∈ CreateHighlight →
         (<["admin" := VBool true]> highlight_empty_reference) !! fname f = Some v →
         record !! fname f = Some v)
    ∧ (∀ f d, f ∈ CreateHighlight →
         (<["admin" := VBool true]> highlight_empty_reference) !! fname f = None →
         fdefault f = Some d → record !! fname f = Some d).
Proof.
  apply (create_record_declared_fields example_str CreateHighlight "highlight"
           (create_highlight example_str)
           (<["admin" := VBool true]> highlight_empty_reference)).
  - apply list_elem_of_here.
  - apply construct_Valid_iff. eexists. vm_compute. reflexivity.
Defined.

Lemma matches_notes_query_user u reference doc :
  matches (notes_query u reference) doc → has_user u doc.
Proof.
  unfold notes_query. destruct reference as [r|]; [destruct (PyStr.truthy r)|].
  - by intros [? _]%matches_user_reference.
  - apply matches_user.
  - apply matches_user.
Qed.

(** X15.  Every list endpoint returns only records of the user it is asked
    for; this holds for the notes endpoint with or without a reference. *)
Theorem list_only_own_records (py_str : value → string) (reference : option string)
    (lst : string → handler (list (gmap string value)))
    (u : string) (st : db) (out : gmap string value) :
  lst ∈ list_endpoints py_str reference →
  out ∈ answered (lst u st).1 →
  has_user u out.
Proof.
  intros Hlst.
  assert (∃ name query, (∀ doc, matches query doc → has_user u doc)
            ∧ lst u st
              = (if reachable st
                 then Ok (to_json py_str <$> filter (matches query) (collection st name))
                 else Fail StoreUnavailable, st)) as (name & query & Hq & ->).
  { unfold list_endpoints in Hlst.
    repeat (apply elem_of_cons in Hlst as [->|Hlst]);
      [| | | |by apply elem_of_nil in Hlst];
      unfold list_highlights, list_bookmarks, list_notes, list_playlists;
      rewrite list_run; do 2 eexists; (split; [|reflexivity]); intros doc;
      first [apply matches_user | apply matches_notes_query_user]. }
  destruct (reachable st); simpl; [|by intros ?%elem_of_nil].
  intros (doc & -> & [Hm _]%list_elem_of_filter)%list_elem_of_fmap.
  by apply to_json_str_field, Hq.
Qed.

Lemma list_only_own_records_witness :
  has_user "u1"
    {[ "id" := VStr "0"; "user_id" := VStr "u1";
       "reference" := VStr "John 3:16"; "translation" := VStr "ESV";
       "content" := VStr "God is love" ]}.
Proof.
  apply (list_only_own_records example_str (Some "John 3:16")
           (λ u, list_notes example_str u (Some "John 3:16")) "u1" sample_store).
  - do 2 apply list_elem_of_further. apply list_elem_of_here.
  - vm_compute. apply list_elem_of_here.
Defined.

(** X16.  A reference only narrows the notes of a user: what the notes
    endpoint returns for a reference is a sublist of what it returns without
    one. *)
Theorem list_notes_narrows (py_str : value → string) (u : string)
    (reference : option string) (st : db) :
  answered (list_notes py_str u reference st).1
  `sublist_of` answered (list_notes py_str u None st).1.
Proof.
  unfold list_notes. rewrite !list_run. destruct (reachable st); simpl; [|done].
  apply fmap_sublist. unfold notes_query.
  destruct reference as [r|]; [|done]. destruct (PyStr.truthy r); [|done].
  rewrite (list_filter_iff (matches (<["reference" := VStr r]> {["user_id" := VStr u]}))
             (λ doc, has_reference r doc ∧ matches {["user_id" := VStr u]} doc)).
  - rewrite <-list_filter_filter. apply sublist_filter.
  - intros doc. rewrite matches_user_reference, matches_user. tauto.
Qed.

Section Templates.


Lemma found_named o : found o = true → ∃ s, o = Some s ∧ s ≠ "".
Proof. destruct o as [[|c s]|]; try done. intros _. by eexists. Qed.


End Templates.



(** X18.  When exactly one of reference and chapter is supplied (present
    and not empty), the explanation, the summary and the devotional all name
    that supplied value. *)
Theorem ai_targets_agree (payload : AIRequest) :
  xorb (found (ai_reference payload)) (found (ai_chapter payload)) = true →
  ∃ s, s ≠ ""
       ∧ ((ai_reference payload = Some s ∧ found (ai_chapter payload) = false)
          ∨ (ai_chapter payload = Some s ∧ found (ai_reference payload) = false))
       ∧ explain_target payload = Some s
       ∧ summary_target payload = Some s
       ∧ devotional_target payload = Some s.
Proof.
  unfold explain_target, summary_target, devotional_target, py_or.
  destruct (found (ai_reference payload)) eqn:Hr,
           (found (ai_chapter payload)) eqn:Hc; simpl; try done; intros _.
  - destruct (found_named _ Hr) as (s & Hs & Hne). exists s.
    rewrite ?Hr, ?Hc, Hs. rewrite Hs in Hr. rewrite ?Hr. tauto.
  - destruct (found_named _ Hc) as (s & Hs & Hne). exists s.
    rewrite ?Hr, ?Hc, Hs. rewrite Hs in Hc. rewrite ?Hc. tauto.
Qed.

Lemma ai_targets_agree_witness :
  ∃ s, s ≠ ""
       ∧ ((Some "" = Some s ∧ found (Some "John 3") = false)
          ∨ (Some "John 3" = Some s ∧ found (Some "") = false))
       ∧ explain_target {| ai_reference := Some ""; ai_chapter := Some "John 3";
                           ai_prompt := None |} = Some s
       ∧ summary_target {| ai_reference := Some ""; ai_chapter := Some "John 3";
                           ai_prompt := None |} = Some s
       ∧ devotional_target {| ai_reference := Some ""; ai_chapter := Some "John 3";
                              ai_prompt := None |} = Some s.
Proof.
  apply (ai_targets_agree
           {| ai_reference := Some ""; ai_chapter := Some "John 3"; ai_prompt := None |}).
  reflexivity.
Defined.

(** X19.  The health report says connected whenever a database handle
    exists, also when listing its collections raised: the error text is then
    reported beside it and the collection list stays empty. *)
Theorem test_database_report (db_handle : option enumeration) :
  st_backend (test_database db_handle) = "running"
  ∧ (st_database (test_database db_handle) = "connected" ↔ db_handle ≠ None)
  ∧ (st_database (test_database db_handle) = "not_connected" ↔ db_handle = None)
  ∧ (∀ message, st_database_error (test_database db_handle) = Some message
                ↔ db_handle = Some (Raises message))
  ∧ (∀ names, db_handle = Some (Names names) →
              st_collections (test_database db_handle) = names)
  ∧ (is_Some (st_database_error (test_database db_handle)) →
     st_collections (test_database db_handle) = []).
Proof.
  destruct db_handle as [[names|message]|]; simpl;
    repeat split; try done; try (by intros [= ->]); try (by intros [= <-]);
    try (by intros [? [=]]); try (by intros ? [= ->]).
Qed.

Section StaticTables.

Lemma stored_references t r txt : stored t r txt → r ∈ ["John 3:16"; "Psalm 23:1"].
Proof.
  unfold stored. change all_pairs with
    [ ("ESV", "John 3:16", "For God so loved the world, that he gave his only Son, that whoever believes in him should not perish but have eternal life.");
      ("ESV", "Psalm 23:1", "The Lord is my shepherd; I shall not want.");
      ("NIV", "John 3:16", "For God so loved the world that he gave his one and only Son, that whoever believes in him shall not perish but have eternal life.");
      ("NIV", "Psalm 23:1", "The Lord is my shepherd, I lack nothing.") ].
  intros Hin.
  repeat (apply elem_of_cons in Hin as [[= -> -> ->]|Hin]);
    [set_solver..|by apply elem_of_nil in Hin].
Qed.

End StaticTables.

(** X20.  Every recommended reference can be fetched in every offered
    translation, for any user and any basis. *)
Theorem recommendations_fetchable (user_id based_on t : string) (item : recommendation) :
  item ∈ get_recommendations user_id based_on → t ∈ get_translations →
  ∃ txt, get_verse (rec_reference item) t
         = Ok {| vb_reference := rec_reference item; vb_translation := t;
                 vb_text := txt |}.
Proof.
  unfold get_recommendations, get_translations. intros Hitem Ht.
  repeat (apply elem_of_cons in Hitem as [->|Hitem]);
    [| |by apply elem_of_nil in Hitem];
    (repeat (apply elem_of_cons in Ht as [->|Ht]);
     [| |by apply elem_of_nil in Ht]);
    by eexists.
Qed.

Lemma recommendations_fetchable_witness :
  ∃ txt, get_verse "Psalm 23:1" "NIV"
         = Ok {| vb_reference := "Psalm 23:1"; vb_translation := "NIV";
                 vb_text := txt |}.
Proof.
  apply (recommendations_fetchable "u1" "Psalms" "NIV"
           {| rec_reference := "Psalm 23:1"; rec_reason := "Because you read Psalms" |}).
  - apply list_elem_of_here.
  - apply list_elem_of_further, list_elem_of_here.
Defined.

(** X21.  No cross reference can be fetched: for every reference, every
    verse listed as its cross reference is answered with 404 by the verse
    lookup, in every translation. *)
Theorem cross_references_not_stored (reference x t : string) :
  x ∈ cr_cross_references (cross_references reference) →
  get_verse x t = Fail (HTTPException 404 "Verse not found in sample dataset").
Proof.
  unfold cross_references. simpl. intros Hx.
  apply get_verse_Fail. intros txt Hst%stored_references.
  repeat case_decide; simpl in Hx;
    repeat (apply elem_of_cons in Hx as [->|Hx]);
    try (by apply elem_of_nil in Hx);
    repeat (apply elem_of_cons in Hst as [[=]|Hst]);
    by apply elem_of_nil in Hst.
Qed.

Lemma cross_references_not_stored_witness :
  get_verse "Romans 5:8" "ESV"
  = Fail (HTTPException 404 "Verse not found in sample dataset").
Proof.
  apply (cross_references_not_stored "John 3:16" "Romans 5:8" "ESV").
  apply list_elem_of_here.
Defined.

Section Audio.

Lemma replace_char_length old new s :
  String.length (replace_char old new s) = String.length s.
Proof. induction s as [|c s IH]; simpl; [done|]. by rewrite IH. Qed.

Lemma startswith_single c s :
  PyStr.startswith (String c "") s
  = match s with String b _ => bool_decide (c = b) | EmptyString => false end.
Proof.
  destruct s as [|b s]; simpl; [done|].
  case_decide; [by rewrite bool_decide_true|by rewrite bool_decide_false].
Qed.

Lemma replace_char_gone old new s :
  old ≠ new → PyStr.contains (String old "") (replace_char old new s) = false.
Proof.
  intros Hne. induction s as [|c s IH]; [done|].
  change (replace_char old new (String c s))
    with (String (if decide (c = old) then new else c) (replace_char old new s)).
  change (PyStr.contains ?a (String ?b ?s'))
    with (PyStr.startswith a (String b s') || PyStr.contains a s').
  rewrite IH, orb_false_r, startswith_single.
  apply bool_decide_eq_false. by case_decide; congruence.
Qed.

Lemma replace_char_absent old new s :
  PyStr.contains (String old "") s = false → replace_char old new s = s.
Proof.
  induction s as [|c s IH]; [done|].
  change (PyStr.contains ?a (String ?b ?s'))
    with (PyStr.startswith a (String b s') || PyStr.contains a s').
  rewrite startswith_single. intros [Hc Hs]%orb_false_elim.
  apply bool_decide_eq_false in Hc. simpl.
  rewrite decide_False by congruence. by rewrite IH.
Qed.

Lemma replace_char_get old new s i :
  String.get i (replace_char old new s)
  = (λ c, if decide (c = old) then new else c) <$> String.get i s.
Proof.
  revert i. induction s as [|c s IH]; intros [|i]; simpl; done.
Qed.

End Audio.

(** X22.  The file name in the audio address is the reference with every
    space replaced by an underscore and every other character kept, position
    by position: it has the length of the reference, carries no space, and
    is the reference itself when that has no space. *)
Theorem audio_url_file_name (reference translation : string) :
  ∃ name,
    au_audio_url (audio_for_reference reference translation)
    = "https://cdn.example.com/audio/" +:+ translation +:+ "/" +:+ name +:+ ".mp3"
    ∧ (∀ i, String.get i name
            = (λ c, if decide (c = " "%char) then "_"%char else c)
                <$> String.get i reference)
    ∧ String.length name = String.length reference
    ∧ PyStr.contains " " name = false
    ∧ (PyStr.contains " " reference = false → name = reference).
Proof.
  exists (replace_char " " "_" reference). split; [done|]. split; [|split; [|split]].
  - intros i. apply replace_char_get.
  - apply replace_char_length.
  - by apply replace_char_gone.
  - apply replace_char_absent.
Qed.
